(** * Grow-nugs game: state engine, growth tick and trade panel

    A shallow embedding of the game's state hook ([useGameState]), of the
    growth tick of [PlantSlot] and of the refresh gate of [TradePanel],
    with the properties of the engine proved over it.

    Numbers.  Every TypeScript [number] is embedded as an exact rational
    ([Q]); [Math.floor], [Math.round], [Math.min] and [Math.max] are written
    out on rationals.  Values that the source only ever uses as array
    indices ([phaseIndex], [slotIndex]) are [nat], and the result of
    [Date.now()] is an integer ([Z]) injected into the rationals where it
    meets arithmetic.

    State updates.  Each [setState(prev => ...)] of the hook is embedded as
    the pure function of [prev] that the updater is; where the callback also
    returns a flag that the updater assigns ([accepted], [success],
    [claimed]) the function returns the pair of the new state and the flag.
    [Math.random()] is an explicit argument. *)

From Stdlib Require Import QArith Qround ZArith Lia Lqa List String Bool.
From Stdlib Require Import DecimalString.
Import ListNotations.
Open Scope Q_scope.

(** ** JavaScript numbers *)

Module JS.

Definition number := Q.

(** [a < b], [a >= b] and [a === b] on numbers, as booleans. *)
Definition ltb (a b : number) : bool := negb (Qle_bool b a).
Definition geb (a b : number) : bool := Qle_bool b a.
Definition eqb (a b : number) : bool := Qeq_bool a b.

Definition Math_floor (x : number) : number := inject_Z (Qfloor x).

(** [Math.round] rounds to the nearest integer, halves going up. *)
Definition Math_round (x : number) : number := inject_Z (Qfloor (x + (1 # 2))).

Definition Math_max (a b : number) : number := if Qle_bool a b then b else a.
Definition Math_min (a b : number) : number := if Qle_bool a b then a else b.

(** A template literal prints an integer in decimal. *)
Definition show (z : Z) : string := NilZero.string_of_int (Z.to_int z).

(** [x || 0] on an optional number: an absent field counts as 0. *)
Definition or0 (x : option number) : number :=
  match x with Some v => v | None => 0 end.

(** [xs.findIndex(p)], with [None] for the source's [-1]. *)
Fixpoint findIndex {A} (p : A -> bool) (xs : list A) : option nat :=
  match xs with
  | [] => None
  | x :: r => if p x then Some O
              else match findIndex p r with Some i => Some (S i) | None => None end
  end.

(** [xs[i] = v] on a copy, for an index inside the array. *)
Fixpoint set_at {A} (i : nat) (v : A) (xs : list A) : list A :=
  match xs, i with
  | [], _ => []
  | _ :: r, O => v :: r
  | x :: r, S j => x :: set_at j v r
  end.

(** [xs.splice(i, 1)] on a copy. *)
Fixpoint splice1 {A} (i : nat) (xs : list A) : list A :=
  match xs, i with
  | [], _ => []
  | _ :: r, O => r
  | x :: r, S j => x :: splice1 j r
  end.

End JS.
Import JS.

(** ** Data model of the state hook *)

Inductive SoilType := basic | light_mix | all_mix.

Record PlantModifiers := {
  waterStacks : number;
  fertilizerApplied : bool;
  soilType : SoilType;
  lastWaterTime : number;
  lastFertilizerTime : number;
  qualityMultiplier : number
}.

Record Plant := {
  plant_id : string;
  strainId : string;
  phaseIndex : nat;
  elapsedInPhase : number;
  plantedAt : number;
  modifiers : PlantModifiers
}.

Record TradeOffer := {
  offer_id : string;
  quantity : number;
  pricePerBud : number
}.

Record Effects := {
  priceMultiplier : option number;
  quantityMultiplier : option number;
  growthMultiplier : option number
}.

Record GameEvent := {
  event_id : string;
  event_name : string;
  event_description : string;
  endsAt : number;
  effects : Effects
}.

Inductive QuestType := harvest | sell | water.

Record Reward := {
  reward_nugs : option number;
  reward_buds : option number
}.

Record Quest := {
  quest_id : string;
  quest_type : QuestType;
  quest_description : string;
  goal : number;
  progress : number;
  reward : Reward;
  claimed : bool
}.

Record Trade := {
  offers : list TradeOffer;
  nextRefreshAt : number
}.

Record Stats := {
  totalHarvests : number;
  bestHarvest : number;
  totalNugsEarned : number;
  totalBudsHarvested : number;
  totalBudsSold : number;
  totalTrades : number
}.

Record Settings := {
  sfxEnabled : bool;
  randomEventsEnabled : bool
}.

Record GameState := {
  nugs : number;
  buds : number;
  slots : list (option Plant);
  upgrades : list (string * number);
  trade : Trade;
  event : option GameEvent;
  quests : list Quest;
  stats : Stats;
  settings : Settings
}.

Definition QuestType_eqb (a b : QuestType) : bool :=
  match a, b with
  | harvest, harvest | sell, sell | water, water => true
  | _, _ => false
  end.

Definition DEFAULT_QUESTS : list Quest :=
  [ {| quest_id := "q-h-1"; quest_type := harvest;
       quest_description := "Ernte 3 Pflanzen";
       goal := 3; progress := 0;
       reward := {| reward_nugs := Some 75; reward_buds := None |};
       claimed := false |};
    {| quest_id := "q-s-1"; quest_type := sell;
       quest_description := "Verkaufe 100 Buds";
       goal := 100; progress := 0;
       reward := {| reward_nugs := Some 150; reward_buds := None |};
       claimed := false |};
    {| quest_id := "q-w-1"; quest_type := water;
       quest_description := "Gieße 10x";
       goal := 10; progress := 0;
       reward := {| reward_nugs := None; reward_buds := Some 20 |};
       claimed := false |} ].

Definition INITIAL_STATS : Stats :=
  {| totalHarvests := 0; bestHarvest := 0; totalNugsEarned := 0;
     totalBudsHarvested := 0; totalBudsSold := 0; totalTrades := 0 |}.

Definition INITIAL_TRADE : Trade := {| offers := []; nextRefreshAt := 0 |}.

Definition INITIAL_STATE : GameState :=
  {| nugs := 100; buds := 0; slots := [None; None]; upgrades := [];
     trade := INITIAL_TRADE; event := None; quests := DEFAULT_QUESTS;
     stats := INITIAL_STATS;
     settings := {| sfxEnabled := true; randomEventsEnabled := true |} |}.

(** ** Object spread: [{ ...prev, field: v }] *)

Definition with_nugs (v : number) (s : GameState) : GameState :=
  {| nugs := v; buds := buds s; slots := slots s; upgrades := upgrades s;
     trade := trade s; event := event s; quests := quests s;
     stats := stats s; settings := settings s |}.

Definition with_buds (v : number) (s : GameState) : GameState :=
  {| nugs := nugs s; buds := v; slots := slots s; upgrades := upgrades s;
     trade := trade s; event := event s; quests := quests s;
     stats := stats s; settings := settings s |}.

Definition with_trade (v : Trade) (s : GameState) : GameState :=
  {| nugs := nugs s; buds := buds s; slots := slots s; upgrades := upgrades s;
     trade := v; event := event s; quests := quests s;
     stats := stats s; settings := settings s |}.

Definition with_event (v : option GameEvent) (s : GameState) : GameState :=
  {| nugs := nugs s; buds := buds s; slots := slots s; upgrades := upgrades s;
     trade := trade s; event := v; quests := quests s;
     stats := stats s; settings := settings s |}.

Definition with_quests (v : list Quest) (s : GameState) : GameState :=
  {| nugs := nugs s; buds := buds s; slots := slots s; upgrades := upgrades s;
     trade := trade s; event := event s; quests := v;
     stats := stats s; settings := settings s |}.

Definition with_stats (v : Stats) (s : GameState) : GameState :=
  {| nugs := nugs s; buds := buds s; slots := slots s; upgrades := upgrades s;
     trade := trade s; event := event s; quests := quests s;
     stats := v; settings := settings s |}.

Definition with_offers (v : list TradeOffer) (t : Trade) : Trade :=
  {| offers := v; nextRefreshAt := nextRefreshAt t |}.

Definition with_pricePerBud (v : number) (o : TradeOffer) : TradeOffer :=
  {| offer_id := offer_id o; quantity := quantity o; pricePerBud := v |}.

Definition with_progress (v : number) (q : Quest) : Quest :=
  {| quest_id := quest_id q; quest_type := quest_type q;
     quest_description := quest_description q; goal := goal q;
     progress := v; reward := reward q; claimed := claimed q |}.

Definition with_claimed (v : bool) (q : Quest) : Quest :=
  {| quest_id := quest_id q; quest_type := quest_type q;
     quest_description := quest_description q; goal := goal q;
     progress := progress q; reward := reward q; claimed := v |}.

(** ** The engine: the updaters of [useGameState] *)

(** The [quests.map] shared by [recordHarvest], [acceptTradeOffer] and
    [recordWaterAction]: every unclaimed quest of type [ty] advances by
    [amount], clamped to its goal. *)
Definition advanceQuest (ty : QuestType) (amount : number) (q : Quest) : Quest :=
  if QuestType_eqb (quest_type q) ty && negb (claimed q)
  then with_progress (Math_min (goal q) (progress q + amount)) q
  else q.

Definition addNugs (amount : number) (prev : GameState) : GameState :=
  with_stats
    {| totalHarvests := totalHarvests (stats prev);
       bestHarvest := bestHarvest (stats prev);
       totalNugsEarned := totalNugsEarned (stats prev) + Math_max 0 amount;
       totalBudsHarvested := totalBudsHarvested (stats prev);
       totalBudsSold := totalBudsSold (stats prev);
       totalTrades := totalTrades (stats prev) |}
    (with_nugs (nugs prev + amount) prev).

Definition spendNugs (amount : number) (state : GameState) : GameState * bool :=
  if geb (nugs state) amount
  then (with_nugs (nugs state - amount) state, true)
  else (state, false).

Definition addBuds (amount : number) (prev : GameState) : GameState :=
  with_buds (Math_max 0 (buds prev + amount)) prev.

Definition spendBuds (amount : number) (state : GameState) : GameState * bool :=
  if geb (buds state) amount
  then (with_buds (buds state - amount) state, true)
  else (state, false).

Definition recordHarvest (budsHarvested : number) (prev : GameState) : GameState :=
  with_quests (map (advanceQuest harvest 1) (quests prev))
    (with_stats
       {| totalHarvests := totalHarvests (stats prev) + 1;
          bestHarvest := Math_max (bestHarvest (stats prev)) budsHarvested;
          totalNugsEarned := totalNugsEarned (stats prev);
          totalBudsHarvested := totalBudsHarvested (stats prev) + budsHarvested;
          totalBudsSold := totalBudsSold (stats prev);
          totalTrades := totalTrades (stats prev) |}
       prev).

Definition recordWaterAction (count : number) (prev : GameState) : GameState :=
  with_quests (map (advanceQuest water count) (quests prev)) prev.

(** [prev.event?.effects.quantityMultiplier ?? 1] and its price twin. *)
Definition qMult_of (ev : option GameEvent) : number :=
  match ev with
  | Some e => match quantityMultiplier (effects e) with Some m => m | None => 1 end
  | None => 1
  end.

Definition pMult_of (ev : option GameEvent) : number :=
  match ev with
  | Some e => match priceMultiplier (effects e) with Some m => m | None => 1 end
  | None => 1
  end.

Definition stage_of (prev : GameState) : number :=
  Math_floor (totalHarvests (stats prev) / 5).

(** One offer of the batch.  [r1] and [r2] are the two [Math.random()]
    draws of the [map] callback, in the order the source makes them. *)
Definition makeOffer (stage qMult pMult : number) (now : Z) (i : nat)
    (r1 r2 : number) : TradeOffer :=
  let minQtyBase := Math_min 200 (5 + stage * 10) in
  let maxQtyBase := Math_min 400 (20 + stage * 20) in
  let minQty := Math_floor (minQtyBase * qMult) in
  let maxQty := Math_floor (maxQtyBase * qMult) in
  let qty := Math_max minQty
               (Math_floor (minQty + r1 * Math_max 1 (maxQty - minQty + 1))) in
  let basePrice := 1 + r2 * 2 in
  let price := Math_min 4 (Math_max 1 ((basePrice + stage * (1 # 10)) * pMult)) in
  {| offer_id := "offer-" ++ show now ++ "-" ++ show (Z.of_nat i);
     quantity := qty;
     pricePerBud := Math_round (price * 10) / 10 |}.

(** [rnd k] is the result of the [k]-th call of [Math.random()] made by the
    updater, [now] the value of [Date.now()]. *)
Definition generateTradeOffers (rnd : nat -> number) (now : Z)
    (prev : GameState) : GameState :=
  let stage := stage_of prev in
  let qMult := qMult_of (event prev) in
  let pMult := pMult_of (event prev) in
  with_trade
    {| offers := map (fun i => makeOffer stage qMult pMult now i
                                 (rnd (2 * i)%nat) (rnd (2 * i + 1)%nat))
                     (seq 0 3);
       nextRefreshAt := inject_Z now + 30000 |}
    prev.

Definition acceptTradeOffer (offerId : string) (prev : GameState)
    : GameState * bool :=
  match find (fun o => String.eqb (offer_id o) offerId) (offers (trade prev)) with
  | None => (prev, false)
  | Some offer =>
    if ltb (buds prev) (quantity offer) then (prev, false)
    else
      let revenue := Math_floor (quantity offer * pricePerBud offer) in
      ({| nugs := nugs prev + revenue;
          buds := buds prev - quantity offer;
          slots := slots prev;
          upgrades := upgrades prev;
          trade := with_offers
                     (filter (fun o => negb (String.eqb (offer_id o) offerId))
                             (offers (trade prev)))
                     (trade prev);
          event := event prev;
          quests := map (advanceQuest sell (quantity offer)) (quests prev);
          stats :=
            {| totalHarvests := totalHarvests (stats prev);
               bestHarvest := bestHarvest (stats prev);
               totalNugsEarned := totalNugsEarned (stats prev) + revenue;
               totalBudsHarvested := totalBudsHarvested (stats prev);
               totalBudsSold := totalBudsSold (stats prev) + quantity offer;
               totalTrades := totalTrades (stats prev) + 1 |};
          settings := settings prev |}, true)
  end.

(** [r] is the [Math.random()] draw; it is only made once the offer has
    been found. *)
Definition haggleTradeOffer (r : number) (offerId : string) (prev : GameState)
    : GameState * bool :=
  match findIndex (fun o => String.eqb (offer_id o) offerId) (offers (trade prev)) with
  | None => (prev, false)
  | Some idx =>
    match nth_error (offers (trade prev)) idx with
    | None => (prev, false)
    | Some current =>
      let success := ltb r (4 # 10) in
      let offers' :=
        if success
        then
          let newPrice := Math_round (pricePerBud current * (12 # 10) * 10) / 10 in
          set_at idx (with_pricePerBud (Math_min 5 newPrice) current)
                 (offers (trade prev))
        else splice1 idx (offers (trade prev)) in
      (with_trade (with_offers offers' (trade prev)) prev, success)
    end
  end.

Definition claimQuestReward (questId : string) (prev : GameState)
    : GameState * bool :=
  match findIndex (fun q => String.eqb (quest_id q) questId) (quests prev) with
  | None => (prev, false)
  | Some idx =>
    match nth_error (quests prev) idx with
    | None => (prev, false)
    | Some quest =>
      if claimed quest || ltb (progress quest) (goal quest) then (prev, false)
      else
        (with_nugs (nugs prev + or0 (reward_nugs (reward quest)))
           (with_buds (buds prev + or0 (reward_buds (reward quest)))
              (with_quests (set_at idx (with_claimed true quest) (quests prev))
                 prev)), true)
    end
  end.

Definition presets : list GameEvent :=
  [ {| event_id := "festival"; event_name := "Psychedelic Festival";
       event_description := "Euphorische Kundschaft zahlt mehr und kauft mehr.";
       endsAt := 0;
       effects := {| priceMultiplier := Some (15 # 10);
                     quantityMultiplier := Some (12 # 10);
                     growthMultiplier := None |} |};
    {| event_id := "mystic-fog"; event_name := "Mystischer Nebel";
       event_description := "Wachstum verlangsamt sich etwas.";
       endsAt := 0;
       effects := {| priceMultiplier := None; quantityMultiplier := None;
                     growthMultiplier := Some (12 # 10) |} |};
    {| event_id := "cosmic-alignment"; event_name := "Kosmische Ausrichtung";
       event_description := "Kosmische Energien beschleunigen das Wachstum!";
       endsAt := 0;
       effects := {| priceMultiplier := None; quantityMultiplier := None;
                     growthMultiplier := Some (8 # 10) |} |};
    {| event_id := "market-rush"; event_name := "Marktrun";
       event_description := "Kurzzeitig höhere Preise.";
       endsAt := 0;
       effects := {| priceMultiplier := Some (13 # 10); quantityMultiplier := None;
                     growthMultiplier := None |} |} ].

Definition with_endsAt (v : number) (e : GameEvent) : GameEvent :=
  {| event_id := event_id e; event_name := event_name e;
     event_description := event_description e; endsAt := v;
     effects := effects e |}.

(** [r] is the [Math.random()] draw that picks the preset; it lies in
    [0, 1), so the index [floor(r * 4)] is one of the list.  The presets
    carry a placeholder [endsAt] that the spread overwrites. *)
Definition triggerRandomEvent (r : number) (now : Z) (prev : GameState)
    : GameState :=
  if negb (randomEventsEnabled (settings prev)) then prev
  else
    match nth_error presets (Z.to_nat (Qfloor (r * 4))) with
    | Some pick => with_event (Some (with_endsAt (inject_Z now + 60000) pick)) prev
    | None => prev
    end.

Definition tickEvent (now : Z) (prev : GameState) : GameState :=
  match event prev with
  | None => prev
  | Some e => if ltb (inject_Z now) (endsAt e) then prev
              else with_event None prev
  end.

(** ** Reference behaviour and sample states used by the statements *)


Definition demoOffers : list TradeOffer :=
  [ {| offer_id := "offer-1000-0"; quantity := 10; pricePerBud := 15 # 10 |};
    {| offer_id := "offer-1000-1"; quantity := 60; pricePerBud := 2 |} ].

Definition demoState : GameState :=
  with_buds 50
    (with_trade {| offers := demoOffers; nextRefreshAt := 31000 |} INITIAL_STATE).


(** ** Sequences of calls *)

(** The calls of the hook that act on currency, trade, quests and events.
    The remaining updaters ([plantSeed], [removePlant], [updatePlant],
    [upgradeLevel], [addSlot]) rewrite only [slots] or [upgrades] and copy
    every other field from [prev]; [resetGame] starts a new game. *)
Inductive Op :=
| OpAddNugs (amount : number)
| OpSpendNugs (amount : number)
| OpAddBuds (amount : number)
| OpSpendBuds (amount : number)
| OpRecordHarvest (budsHarvested : number)
| OpGenerateTradeOffers (rnd : nat -> number) (now : Z)
| OpAcceptTradeOffer (offerId : string)
| OpHaggleTradeOffer (r : number) (offerId : string)
| OpClaimQuestReward (questId : string)
| OpRecordWaterAction (count : number)
| OpTriggerRandomEvent (r : number) (now : Z)
| OpTickEvent (now : Z).

Definition step (o : Op) (s : GameState) : GameState :=
  match o with
  | OpAddNugs amount => addNugs amount s
  | OpSpendNugs amount => fst (spendNugs amount s)
  | OpAddBuds amount => addBuds amount s
  | OpSpendBuds amount => fst (spendBuds amount s)
  | OpRecordHarvest b => recordHarvest b s
  | OpGenerateTradeOffers rnd now => generateTradeOffers rnd now s
  | OpAcceptTradeOffer offerId => fst (acceptTradeOffer offerId s)
  | OpHaggleTradeOffer r offerId => fst (haggleTradeOffer r offerId s)
  | OpClaimQuestReward questId => fst (claimQuestReward questId s)
  | OpRecordWaterAction count => recordWaterAction count s
  | OpTriggerRandomEvent r now => triggerRandomEvent r now s
  | OpTickEvent now => tickEvent now s
  end.






(** An event that [triggerRandomEvent] can have set: one of the presets,
    with whatever end time. *)
Definition preset_event (ev : option GameEvent) : Prop :=
  match ev with
  | None => True
  | Some e => exists p, In p presets /\ effects e = effects p
  end.

(** ** Updating a plant in its slot *)

Definition with_slots (v : list (option Plant)) (s : GameState) : GameState :=
  {| nugs := nugs s; buds := buds s; slots := v; upgrades := upgrades s;
     trade := trade s; event := event s; quests := quests s;
     stats := stats s; settings := settings s |}.

(** [Partial<Plant>]: [None] is a key that the object does not have. *)
Record PartialPlant := {
  p_id : option string;
  p_strainId : option string;
  p_phaseIndex : option nat;
  p_elapsedInPhase : option number;
  p_plantedAt : option number;
  p_modifiers : option PlantModifiers
}.

Definition over {A} (o : option A) (d : A) : A :=
  match o with Some v => v | None => d end.

(** [{ ...plant, ...updates }] *)
Definition mergePlant (plant : Plant) (updates : PartialPlant) : Plant :=
  {| plant_id := over (p_id updates) (plant_id plant);
     strainId := over (p_strainId updates) (strainId plant);
     phaseIndex := over (p_phaseIndex updates) (phaseIndex plant);
     elapsedInPhase := over (p_elapsedInPhase updates) (elapsedInPhase plant);
     plantedAt := over (p_plantedAt updates) (plantedAt plant);
     modifiers := over (p_modifiers updates) (modifiers plant) |}.

(** An index outside the array, or an empty slot, reads as a falsy value:
    the copy of [slots] is stored back as it is. *)
Definition updatePlant (slotIndex : nat) (updates : PartialPlant)
    (prev : GameState) : GameState :=
  match nth_error (slots prev) slotIndex with
  | Some (Some plant) =>
      with_slots (set_at slotIndex (Some (mergePlant plant updates)) (slots prev)) prev
  | _ => with_slots (slots prev) prev
  end.

(** ** The growth tick of [PlantSlot] *)

(** Modelled from the spec: the phase catalog [PHASES] of [@/data/phases]
    is a list with per-phase [duration], [waterRecommended] and
    [fertilizerRecommended]; [PlantSlot] also reads [name]. *)
Record Phase := {
  phase_name : string;
  duration : number;
  waterRecommended : bool;
  fertilizerRecommended : bool
}.

(** Modelled from the spec: the driver forwards the slot's [onUpdate] to
    [updatePlant(slot, elapsed, phaseIndex)], which stores both values in
    the plant. *)
Definition onUpdateArgs (elapsed : number) (phaseIndex : nat) : PartialPlant :=
  {| p_id := None; p_strainId := None; p_phaseIndex := Some phaseIndex;
     p_elapsedInPhase := Some elapsed; p_plantedAt := None; p_modifiers := None |}.

Section PlantSlot.

(** The catalog and the two lookups of [usePlantLogic] that the tick uses
    are inputs of the component. *)
Variable PHASES : list Phase.
Variable Strain : Type.
Variable getStrain : string -> option Strain.
Variable getTimeMultiplier : string -> number.

Definition soilMultiplier (plant : Plant) : number :=
  match soilType (modifiers plant) with
  | light_mix => 9 # 10
  | _ => 1
  end.

Definition phaseDuration (currentPhase : Phase) (plant : Plant) : number :=
  duration currentPhase * getTimeMultiplier (strainId plant) * soilMultiplier plant.

(** One run of the interval callback for the mounted [plant] and the
    component's [localElapsed]: the [onUpdate] call it makes, if any, as
    [(elapsed, phaseIndex)], and the new [localElapsed].  An unknown
    strain returns early; a [phaseIndex] outside [PHASES] makes
    [currentPhase.duration] throw before anything is set. *)
Definition tick (plant : Plant) (localElapsed : number)
    : option (number * nat) * number :=
  match getStrain (strainId plant) with
  | None => (None, localElapsed)
  | Some _ =>
    match nth_error PHASES (phaseIndex plant) with
    | None => (None, localElapsed)
    | Some currentPhase =>
      let newElapsed := localElapsed + 1 in
      if geb newElapsed (phaseDuration currentPhase plant) then
        let nextPhase := S (phaseIndex plant) in
        if (nextPhase <? List.length PHASES)%nat
        then (Some (0, nextPhase), 0)
        else (None, newElapsed)
      else (Some (newElapsed, phaseIndex plant), newElapsed)
    end
  end.

(** The tick seen from the plant: the stored plant after the update. *)
Definition advance (st : Plant * number) : Plant * number :=
  let (plant, localElapsed) := st in
  match tick plant localElapsed with
  | (Some (elapsed, phaseIndex), l) =>
      (mergePlant plant (onUpdateArgs elapsed phaseIndex), l)
  | (None, l) => (plant, l)
  end.

Fixpoint advances (n : nat) (st : Plant * number) : Plant * number :=
  match n with
  | O => st
  | S k => advances k (advance st)
  end.

(** The tick seen from the game state, for the component mounted on
    [slotIndex]; an empty slot has no interval running. *)
Definition slotTick (slotIndex : nat) (s : GameState) (localElapsed : number)
    : GameState * number :=
  match nth_error (slots s) slotIndex with
  | Some (Some plant) =>
    match tick plant localElapsed with
    | (Some (elapsed, phaseIndex), l) =>
        (updatePlant slotIndex (onUpdateArgs elapsed phaseIndex) s, l)
    | (None, l) => (s, l)
    end
  | _ => (s, localElapsed)
  end.

(** The duration of the current phase of a plant, when it has one. *)
Definition currentPhaseDuration (plant : Plant) : option number :=
  match nth_error PHASES (phaseIndex plant) with
  | Some currentPhase => Some (phaseDuration currentPhase plant)
  | None => None
  end.

(** The phase duration in the words of the specification, with the active
    event's growth multiplier as a fourth factor. *)
Definition specPhaseDuration (currentPhase : Phase) (plant : Plant)
    (activeEvent : option GameEvent) : number :=
  duration currentPhase * getTimeMultiplier (strainId plant) * soilMultiplier plant
  * match activeEvent with
    | Some e => over (growthMultiplier (effects e)) 1
    | None => 1
    end.

(** The stored plant is inside its current phase: the phase exists and
    [elapsedInPhase] lies between 0 and the phase's duration. *)
Definition plant_in_range (plant : Plant) : Prop :=
  exists currentPhase,
    nth_error PHASES (phaseIndex plant) = Some currentPhase /\
    0 <= elapsedInPhase plant /\
    elapsedInPhase plant <= phaseDuration currentPhase plant.

End PlantSlot.

(** ** The refresh gate of [TradePanel] *)

Definition refreshCooldownMs (nextRefreshAt : number) (now : Z) : number :=
  Math_max 0 (nextRefreshAt - inject_Z now).

Definition canRefresh (nextRefreshAt : number) (now : Z) : bool :=
  eqb (refreshCooldownMs nextRefreshAt now) 0.

(** A click on the refresh button.  [panelNow] is the time the panel
    sampled last; a disabled button does not call [onRefresh].
    Modelled from the spec: the driver forwards [onRefresh] to
    [generateOffers()], whose updater reads the clock itself ([now]). *)
Definition clickRefresh (panelNow : Z) (rnd : nat -> number) (now : Z)
    (s : GameState) : GameState :=
  if canRefresh (nextRefreshAt (trade s)) panelNow
  then generateTradeOffers rnd now s
  else s.

(** ** Sample catalog and garden *)

Definition demoPHASES : list Phase :=
  map (fun n => {| phase_name := n; duration := 60;
                   waterRecommended := true; fertilizerRecommended := false |})
      ["Germination"; "Seedling"; "Veg"; "Preflower"; "Flower"; "Harvest"]%string.

Definition demoGetStrain (strainId : string) : option unit := Some tt.
Definition demoTimeMultiplier (strainId : string) : number := 1.

Definition demoPlant : Plant :=
  {| plant_id := "plant-1000-0"; strainId := "og-kush"; phaseIndex := 0;
     elapsedInPhase := 59; plantedAt := 1000;
     modifiers := {| waterStacks := 0; fertilizerApplied := false;
                     soilType := basic; lastWaterTime := 0;
                     lastFertilizerTime := 0; qualityMultiplier := 1 |} |}.

Definition mysticFog : GameEvent :=
  {| event_id := "mystic-fog"; event_name := "Mystischer Nebel";
     event_description := "Wachstum verlangsamt sich etwas.";
     endsAt := 61000;
     effects := {| priceMultiplier := None; quantityMultiplier := None;
                   growthMultiplier := Some (12 # 10) |} |}.

Definition foggyGarden : GameState :=
  with_event (Some mysticFog) (with_slots [Some demoPlant; None] INITIAL_STATE).

(** ** Saving and loading *)

(** JavaScript values as the save path sees them.  An object is the list
    of its own properties in enumeration order; when a list names a key
    more than once the last occurrence counts, as in [JSON.parse]. *)
#[local] Set Warnings "-register-all".

Inductive jsval :=
| JUndefined
| JNull
| JBool (b : bool)
| JNum (n : number)
| JStr (s : string)
| JArr (xs : list jsval)
| JObj (fields : list (string * jsval)).

Module Obj.

Definition t := list (string * jsval).

(** [o[k]], with [None] for a key that [o] does not have. *)
Fixpoint get (k : string) (o : t) : option jsval :=
  match o with
  | [] => None
  | (k', v) :: r =>
      match get k r with
      | Some w => Some w
      | None => if String.eqb k' k then Some v else None
      end
  end.

Definition has (k : string) (o : t) : bool :=
  match get k o with Some _ => true | None => false end.

Fixpoint replace (k : string) (v : jsval) (o : t) : t :=
  match o with
  | [] => []
  | (k', w) :: r => (k', if String.eqb k' k then v else w) :: replace k v r
  end.

(** [o[k] = v]: an existing key keeps its place, a new key goes last. *)
Definition set (k : string) (v : jsval) (o : t) : t :=
  if has k o then replace k v o else o ++ [(k, v)].

(** [{ ...o, ...src }] *)
Definition spread (o src : t) : t :=
  fold_left (fun acc kv => set (fst kv) (snd kv) acc) src o.

End Obj.

(** What [JSON.parse(JSON.stringify(v))] makes of a value inside a state:
    a property whose value is [undefined] is left out of its object, an
    [undefined] array element becomes [null], everything else is kept. *)
Fixpoint jsonOf (v : jsval) : jsval :=
  match v with
  | JArr xs =>
      JArr (map (fun x => match x with JUndefined => JNull | _ => jsonOf x end) xs)
  | JObj fields =>
      JObj ((fix props (fs : list (string * jsval)) : list (string * jsval) :=
               match fs with
               | [] => []
               | (k, JUndefined) :: r => props r
               | (k, x) :: r => (k, jsonOf x) :: props r
               end) fields)
  | _ => v
  end.

Definition truthy (v : jsval) : bool :=
  match v with
  | JUndefined | JNull => false
  | JBool b => b
  | JNum n => negb (Qeq_bool n 0)
  | JStr s => negb (String.eqb s "")
  | JArr _ | JObj _ => true
  end.

(** [a || b] *)
Definition orElse (a b : jsval) : jsval := if truthy a then a else b.

(** [parsed?.k]: the property of an object; the keys read here ([stats],
    [trade], [quests]) are not properties of any other kind of value. *)
Definition prop (k : string) (v : jsval) : jsval :=
  match v with
  | JObj fields => match Obj.get k fields with Some w => w | None => JUndefined end
  | _ => JUndefined
  end.

Fixpoint indexed (i : nat) (xs : list jsval) : Obj.t :=
  match xs with
  | [] => []
  | x :: r => (show (Z.of_nat i), x) :: indexed (S i) r
  end.

Fixpoint chars (s : string) : list jsval :=
  match s with
  | EmptyString => []
  | String c r => JStr (String c EmptyString) :: chars r
  end.

(** The properties that [...v] copies: those of an object, the elements of
    an array and the characters of a string under their indices, nothing
    for the other values. *)
Definition ownProps (v : jsval) : Obj.t :=
  match v with
  | JObj fields => fields
  | JArr xs => indexed 0 xs
  | JStr s => indexed 0 (chars s)
  | _ => []
  end.

(** *** The state as a JavaScript object *)

Definition optField (k : string) (x : option number) : Obj.t :=
  match x with Some v => [(k, JNum v)] | None => [] end.

Definition SoilType_str (t : SoilType) : string :=
  match t with basic => "basic" | light_mix => "light-mix" | all_mix => "all-mix" end.

Definition QuestType_str (t : QuestType) : string :=
  match t with harvest => "harvest" | sell => "sell" | water => "water" end.

Definition jsModifiers (m : PlantModifiers) : jsval :=
  JObj [ ("waterStacks", JNum (waterStacks m));
         ("fertilizerApplied", JBool (fertilizerApplied m));
         ("soilType", JStr (SoilType_str (soilType m)));
         ("lastWaterTime", JNum (lastWaterTime m));
         ("lastFertilizerTime", JNum (lastFertilizerTime m));
         ("qualityMultiplier", JNum (qualityMultiplier m)) ]%string.

Definition jsPlant (p : Plant) : jsval :=
  JObj [ ("id", JStr (plant_id p));
         ("strainId", JStr (strainId p));
         ("phaseIndex", JNum (inject_Z (Z.of_nat (phaseIndex p))));
         ("elapsedInPhase", JNum (elapsedInPhase p));
         ("plantedAt", JNum (plantedAt p));
         ("modifiers", jsModifiers (modifiers p)) ]%string.

Definition jsSlot (s : option Plant) : jsval :=
  match s with Some p => jsPlant p | None => JNull end.

Definition jsOffer (o : TradeOffer) : jsval :=
  JObj [ ("id", JStr (offer_id o));
         ("quantity", JNum (quantity o));
         ("pricePerBud", JNum (pricePerBud o)) ]%string.

Definition jsTrade (t : Trade) : Obj.t :=
  [ ("offers", JArr (map jsOffer (offers t)));
    ("nextRefreshAt", JNum (nextRefreshAt t)) ]%string.

Definition jsEffects (e : Effects) : jsval :=
  JObj (optField "priceMultiplier" (priceMultiplier e)
        ++ optField "quantityMultiplier" (quantityMultiplier e)
        ++ optField "growthMultiplier" (growthMultiplier e)).

(** [{ ...pick, endsAt }] *)
Definition jsEvent (e : GameEvent) : jsval :=
  JObj [ ("id", JStr (event_id e));
         ("name", JStr (event_name e));
         ("description", JStr (event_description e));
         ("effects", jsEffects (effects e));
         ("endsAt", JNum (endsAt e)) ]%string.

Definition jsReward (r : Reward) : jsval :=
  JObj (optField "nugs" (reward_nugs r) ++ optField "buds" (reward_buds r)).

Definition jsQuest (q : Quest) : jsval :=
  JObj [ ("id", JStr (quest_id q));
         ("type", JStr (QuestType_str (quest_type q)));
         ("description", JStr (quest_description q));
         ("goal", JNum (goal q));
         ("progress", JNum (progress q));
         ("reward", jsReward (reward q));
         ("claimed", JBool (claimed q)) ]%string.

Definition jsStats (s : Stats) : Obj.t :=
  [ ("totalHarvests", JNum (totalHarvests s));
    ("bestHarvest", JNum (bestHarvest s));
    ("totalNugsEarned", JNum (totalNugsEarned s));
    ("totalBudsHarvested", JNum (totalBudsHarvested s));
    ("totalBudsSold", JNum (totalBudsSold s));
    ("totalTrades", JNum (totalTrades s)) ]%string.

Definition jsSettings (s : Settings) : jsval :=
  JObj [ ("sfxEnabled", JBool (sfxEnabled s));
         ("randomEventsEnabled", JBool (randomEventsEnabled s)) ]%string.

Definition jsUpgrades (u : list (string * number)) : jsval :=
  JObj (map (fun kv => (fst kv, JNum (snd kv))) u).

Definition jsQuests (qs : list Quest) : jsval := JArr (map jsQuest qs).

(** The state object; an absent event is the key [event] holding
    [undefined], as in [INITIAL_STATE] and after [tickEvent]. *)
Definition jsState (s : GameState) : Obj.t :=
  [ ("nugs", JNum (nugs s));
    ("buds", JNum (buds s));
    ("slots", JArr (map jsSlot (slots s)));
    ("upgrades", jsUpgrades (upgrades s));
    ("trade", JObj (jsTrade (trade s)));
    ("event", match event s with Some e => jsEvent e | None => JUndefined end);
    ("quests", jsQuests (quests s));
    ("stats", JObj (jsStats (stats s)));
    ("settings", jsSettings (settings s)) ]%string.

(** *** The save slot and the initializer of the state *)

(** What [localStorage.getItem(STORAGE_KEY)] holds, as the initializer
    meets it: nothing (or the empty string), a string on which
    [JSON.parse] throws, or a string that parses to a value. *)
Inductive SavedItem :=
| NoItem
| Unparseable
| Parsed (parsed : jsval).

(** [localStorage.setItem(STORAGE_KEY, JSON.stringify(state))], read back
    by the next session. *)
Definition saveState (state : Obj.t) : SavedItem := Parsed (jsonOf (JObj state)).

Definition loadState (saved : SavedItem) : Obj.t :=
  match saved with
  | NoItem => jsState INITIAL_STATE
  | Unparseable => jsState INITIAL_STATE
  | Parsed parsed =>
      let merged := Obj.spread (jsState INITIAL_STATE) (ownProps parsed) in
      let stats' :=
        JObj (Obj.spread (jsStats INITIAL_STATS)
                (ownProps (orElse (prop "stats" parsed) (JObj [])))) in
      let trade' :=
        JObj (Obj.spread (jsTrade INITIAL_TRADE)
                (ownProps (orElse (prop "trade" parsed) (JObj [])))) in
      let quests' := orElse (prop "quests" parsed) (jsQuests DEFAULT_QUESTS) in
      Obj.set "quests" quests' (Obj.set "trade" trade' (Obj.set "stats" stats' merged))
  end.


(** A save written before quests, trade and most of the stats existed. *)
Definition oldSave : jsval :=
  JObj [ ("nugs", JNum 250); ("buds", JNum 12);
         ("stats", JObj [ ("totalHarvests", JNum 7) ]) ]%string.

(** * The rest of the hook and of the two components *)

(** ** Planting, clearing and adding slots *)

(** [xs[i] = v] on a copy, for any index.  Inside the array it replaces the
    element.  Past the end JavaScript lengthens the array to [i + 1]; the
    elements in between are holes, which read as [undefined] and which every
    reader of [slots] tests for truthiness as it does [null]: they are
    written [hole]. *)
Fixpoint assign_at {A} (hole : A) (i : nat) (v : A) (xs : list A) : list A :=
  match i, xs with
  | O, [] => [v]
  | O, _ :: r => v :: r
  | S j, [] => hole :: assign_at hole j v []
  | S j, x :: r => x :: assign_at hole j v r
  end.

(** The plant that [plantSeed] creates; [nowId] and [nowPlanted] are the
    two readings of [Date.now()], for the id and for [plantedAt]. *)
Definition newPlant (slotIndex : nat) (strain : string) (soil : SoilType)
    (nowId nowPlanted : Z) : Plant :=
  {| plant_id := "plant-" ++ show nowId ++ "-" ++ show (Z.of_nat slotIndex);
     strainId := strain;
     phaseIndex := 0;
     elapsedInPhase := 0;
     plantedAt := inject_Z nowPlanted;
     modifiers := {| waterStacks := 0; fertilizerApplied := false;
                     soilType := soil; lastWaterTime := 0;
                     lastFertilizerTime := 0; qualityMultiplier := 1 |} |}.

Definition plantSeed (slotIndex : nat) (strain : string) (soil : SoilType)
    (nowId nowPlanted : Z) (prev : GameState) : GameState :=
  with_slots
    (assign_at None slotIndex
       (Some (newPlant slotIndex strain soil nowId nowPlanted)) (slots prev))
    prev.

Definition removePlant (slotIndex : nat) (prev : GameState) : GameState :=
  with_slots (assign_at None slotIndex None (slots prev)) prev.

Definition addSlot (prev : GameState) : GameState :=
  with_slots (slots prev ++ [None]) prev.

(** ** Upgrade levels *)

Definition with_upgrades (v : list (string * number)) (s : GameState) : GameState :=
  {| nugs := nugs s; buds := buds s; slots := slots s; upgrades := v;
     trade := trade s; event := event s; quests := quests s;
     stats := stats s; settings := settings s |}.

(** [upgrades[id]], for ids that are not names of [Object.prototype]. *)
Definition levelOf (upgradeId : string) (u : list (string * number)) : option number :=
  match find (fun kv => String.eqb (fst kv) upgradeId) u with
  | Some kv => Some (snd kv)
  | None => None
  end.

Fixpoint replaceLevel (upgradeId : string) (v : number) (u : list (string * number))
    : list (string * number) :=
  match u with
  | [] => []
  | (k, w) :: r =>
      (k, if String.eqb k upgradeId then v else w) :: replaceLevel upgradeId v r
  end.

(** [{ ...upgrades, [id]: v }]: a known id keeps its place, a new one goes
    last. *)
Definition setLevel (upgradeId : string) (v : number) (u : list (string * number))
    : list (string * number) :=
  match levelOf upgradeId u with
  | Some _ => replaceLevel upgradeId v u
  | None => u ++ [(upgradeId, v)]
  end.

Definition upgradeLevel (upgradeId : string) (prev : GameState) : GameState :=
  with_upgrades
    (setLevel upgradeId (or0 (levelOf upgradeId (upgrades prev)) + 1) (upgrades prev))
    prev.

(** ** Every call of the hook *)

Inductive Call :=
| Engine (o : Op)
| PlantSeed (slotIndex : nat) (strain : string) (soil : SoilType) (nowId nowPlanted : Z)
| RemovePlant (slotIndex : nat)
| UpdatePlant (slotIndex : nat) (updates : PartialPlant)
| UpgradeLevel (upgradeId : string)
| AddSlot.

Definition perform (c : Call) (s : GameState) : GameState :=
  match c with
  | Engine o => step o s
  | PlantSeed i strain soil nowId nowPlanted => plantSeed i strain soil nowId nowPlanted s
  | RemovePlant i => removePlant i s
  | UpdatePlant i updates => updatePlant i updates s
  | UpgradeLevel upgradeId => upgradeLevel upgradeId s
  | AddSlot => addSlot s
  end.

Fixpoint performs (cs : list Call) (s : GameState) : GameState :=
  match cs with
  | [] => s
  | c :: r => performs r (perform c s)
  end.

(** The arguments a running game passes: the [Math.random()] draws that
    pick a quantity or a preset lie in [0, 1), and the amounts credited to
    [nugs] or counted as waterings are not negative. *)
Definition call_ok (c : Call) : Prop :=
  match c with
  | Engine (OpAddNugs amount) => 0 <= amount
  | Engine (OpRecordWaterAction count) => 0 <= count
  | Engine (OpGenerateTradeOffers rnd _) => forall k, 0 <= rnd k /\ rnd k < 1
  | Engine (OpTriggerRandomEvent r _) => 0 <= r /\ r < 1
  | _ => True
  end.

(** ** What the trade panel shows *)

Definition Math_ceil (x : number) : number := inject_Z (Qceiling x).

Definition refreshSeconds (nextRefreshAt : number) (now : Z) : number :=
  Math_ceil (refreshCooldownMs nextRefreshAt now / 1000).

Definition offerRevenue (offer : TradeOffer) : number :=
  Math_floor (quantity offer * pricePerBud offer).


(** [offers.reduce((sum, o) => sum + Math.floor(o.quantity * o.pricePerBud), 0)] *)
Definition totalValue (offers : list TradeOffer) : number :=
  fold_left (fun sum o => sum + offerRevenue o) offers 0.

(** ** What the plant slot shows *)

Definition phaseProgress (localElapsed phaseDuration : number) : number :=
  localElapsed / phaseDuration * 100.

(** [plant.phaseIndex === PHASES.length - 1 && progress >= 100]; the render
    reads [currentPhase.duration] first, which throws for a [phaseIndex]
    outside [PHASES]. *)
Definition isHarvestReady (PHASES : list Phase) (getTimeMultiplier : string -> number)
    (plant : Plant) (localElapsed : number) : bool :=
  match nth_error PHASES (phaseIndex plant) with
  | Some currentPhase =>
      (S (phaseIndex plant) =? List.length PHASES)%nat
      && geb (phaseProgress localElapsed (phaseDuration getTimeMultiplier currentPhase plant)) 100
  | None => false
  end.

(** The water gauge; the two arguments are the optional [cooldownTotalMs]
    and [cooldownRemainingMs] of the action that [canWater] returns. *)
Definition waterRemaining (cooldownRemainingMs : option number) : number :=
  Math_max 0 (over cooldownRemainingMs 0).

Definition waterLevel (cooldownTotalMs cooldownRemainingMs : option number) : number :=
  let waterTotal := over cooldownTotalMs 15000 in
  Math_max 0
    (Math_min 100
       (Math_round
          (waterRemaining cooldownRemainingMs
           / (if eqb waterTotal 0 then 1 else waterTotal) * 100))).

Definition waterSecs (cooldownRemainingMs : option number) : number :=
  Math_ceil (waterRemaining cooldownRemainingMs / 1000).

(** ** Health of a state *)

Definition offer_ok (o : TradeOffer) : Prop :=
  (exists k : Z, quantity o = inject_Z k /\ (1 <= k)%Z) /\
  1 <= pricePerBud o /\ pricePerBud o <= 5.

Definition quest_ok (q : Quest) : Prop :=
  0 <= progress q /\ progress q <= goal q /\
  0 <= or0 (reward_nugs (reward q)) /\ 0 <= or0 (reward_buds (reward q)).

Record healthy (s : GameState) : Prop := {
  healthy_nugs : 0 <= nugs s;
  healthy_buds : 0 <= buds s;
  healthy_harvests : 0 <= totalHarvests (stats s);
  healthy_event : preset_event (event s);
  healthy_offers : Forall offer_ok (offers (trade s));
  healthy_offer_count : (List.length (offers (trade s)) <= 3)%nat;
  healthy_quests : Forall quest_ok (quests s)
}.

(** ** Quests over time *)






Definition okCalls : list Call :=
  [ Engine (OpGenerateTradeOffers (fun _ => 1 # 2) 1000);
    Engine (OpAddBuds 40);
    Engine (OpAcceptTradeOffer "offer-1000-0");
    Engine (OpHaggleTradeOffer (1 # 4) "offer-1000-1");
    Engine (OpSpendNugs 50);
    Engine (OpTriggerRandomEvent (3 # 10) 2000) ].

Definition seedling : Plant :=
  newPlant 0 "og-kush" basic 1000 1000.

Definition ripePlant : Plant :=
  {| plant_id := "plant-1000-1"; strainId := "og-kush"; phaseIndex := 5;
     elapsedInPhase := 59; plantedAt := 1000;
     modifiers := {| waterStacks := 2; fertilizerApplied := true;
                     soilType := light_mix; lastWaterTime := 0;
                     lastFertilizerTime := 0; qualityMultiplier := 1 |} |}.

Definition noStrain (strainId : string) : option unit := None.



Definition stateKeys : list string :=
  [ "nugs"; "buds"; "slots"; "upgrades"; "trade"; "event"; "quests"; "stats";
    "settings" ]%string.

Definition statsKeys : list string :=
  [ "totalHarvests"; "bestHarvest"; "totalNugsEarned"; "totalBudsHarvested";
    "totalBudsSold"; "totalTrades" ]%string.

Definition tradeKeys : list string := [ "offers"; "nextRefreshAt" ]%string.
(** * Properties of the engine *)

(** ** Currency *)

Lemma Math_max_lub_l (a b : number) : a <= Math_max a b.
Proof.
  unfold Math_max. destruct (Qle_bool a b) eqn:E.
  - now apply Qle_bool_iff.
  - apply Qle_refl.
Qed.

(** [addBuds] clamps the new balance at zero. *)
Lemma addBuds_nonneg (amount : number) (prev : GameState) :
  0 <= buds (addBuds amount prev).
Proof. unfold addBuds; simpl. apply Math_max_lub_l. Qed.

(** C10 (the code breaks the invariant).  [addNugs] adds its argument to
    [nugs] without the clamp that [addBuds] applies, although it expects
    negative amounts (it clamps the amount it adds to [totalNugsEarned]):
    from the initial state, [addNugs(-101)] leaves [nugs] at -1, which is
    negative, while the earned total stays at 0. *)
Theorem addNugs_negative_balance :
  nugs (addNugs (-101) INITIAL_STATE) == -1 /\
  nugs (addNugs (-101) INITIAL_STATE) < 0 /\
  totalNugsEarned (stats (addNugs (-101) INITIAL_STATE)) == 0 /\
  buds (addBuds (-101) INITIAL_STATE) == 0.
Proof. repeat split; reflexivity. Qed.

(** ** Comparisons and rounding *)

Lemma ltb_lt (a b : number) : ltb a b = true <-> a < b.
Proof.
  unfold ltb. rewrite negb_true_iff. split; intro H.
  - apply Qnot_le_lt. intro L. apply Qle_bool_iff in L. congruence.
  - destruct (Qle_bool b a) eqn:E; [|reflexivity].
    apply Qle_bool_iff in E. exfalso. exact (Qlt_not_le _ _ H E).
Qed.

Lemma ltb_ge (a b : number) : ltb a b = false <-> b <= a.
Proof.
  unfold ltb. rewrite negb_false_iff. apply Qle_bool_iff.
Qed.

Lemma Math_min_cases (a b : number) :
  (a <= b /\ Math_min a b = a) \/ (b < a /\ Math_min a b = b).
Proof.
  unfold Math_min. destruct (Qle_bool a b) eqn:E.
  - left. split; [now apply Qle_bool_iff | reflexivity].
  - right. split; [|reflexivity]. apply Qnot_le_lt. intro L.
    apply Qle_bool_iff in L. congruence.
Qed.

Lemma Math_max_cases (a b : number) :
  (a <= b /\ Math_max a b = b) \/ (b < a /\ Math_max a b = a).
Proof.
  unfold Math_max. destruct (Qle_bool a b) eqn:E.
  - left. split; [now apply Qle_bool_iff | reflexivity].
  - right. split; [|reflexivity]. apply Qnot_le_lt. intro L.
    apply Qle_bool_iff in L. congruence.
Qed.

(** ** Lookups by id *)

Lemma find_none_iff {A} (p : A -> bool) (xs : list A) :
  find p xs = None <-> forall x, In x xs -> p x = false.
Proof.
  split.
  - intros H x Hx. exact (find_none p xs H x Hx).
  - induction xs as [|x r IH]; simpl; intro H; [reflexivity|].
    rewrite (H x (or_introl eq_refl)). apply IH. intros y Hy. apply H. now right.
Qed.

Lemma findIndex_some {A} (p : A -> bool) (xs : list A) (i : nat) :
  findIndex p xs = Some i ->
  exists x, nth_error xs i = Some x /\ p x = true /\
            forall j y, (j < i)%nat -> nth_error xs j = Some y -> p y = false.
Proof.
  revert i. induction xs as [|x r IH]; simpl; intros i H; [discriminate|].
  destruct (p x) eqn:Px.
  - injection H as <-. exists x. repeat split; auto. intros j y Hj. lia.
  - destruct (findIndex p r) as [k|] eqn:Fk; [|discriminate].
    injection H as <-. destruct (IH k eq_refl) as (y & Hy & Py & Hlt).
    exists y. repeat split; auto.
    intros [|j] z Hj Hz; simpl in Hz.
    + injection Hz as <-. exact Px.
    + apply (Hlt j z); [lia | exact Hz].
Qed.

Lemma findIndex_none_iff {A} (p : A -> bool) (xs : list A) :
  findIndex p xs = None <-> forall x, In x xs -> p x = false.
Proof.
  induction xs as [|x r IH]; simpl.
  - split; [intros _ y [] | reflexivity].
  - destruct (p x) eqn:Px.
    + split; [discriminate|]. intro H. specialize (H x (or_introl eq_refl)). congruence.
    + destruct (findIndex p r) as [k|].
      * split; [discriminate|]. intro H.
        destruct IH as [_ IH]. discriminate IH. intros y Hy. apply H. now right.
      * split; [|reflexivity]. intros _ y [<-|Hy]; [exact Px|].
        destruct IH as [IH _]. now apply IH.
Qed.

(** ** Accepting an offer *)




(** ** Haggling *)

(** Rounding to one decimal place, [Math.round(x * 10) / 10], gives a
    multiple of one tenth at most one twentieth away from [x]. *)
Lemma round_one_decimal (x : number) :
  exists k : Z,
    Math_round (x * 10) / 10 == k # 10 /\
    x - (1 # 20) < Math_round (x * 10) / 10 /\
    Math_round (x * 10) / 10 <= x + (1 # 20).
Proof.
  unfold Math_round. set (k := Qfloor (x * 10 + (1 # 2))).
  exists k.
  assert (Hlo : inject_Z k <= x * 10 + (1 # 2)) by apply Qfloor_le.
  assert (Hhi : x * 10 + (1 # 2) < inject_Z (k + 1)) by apply Qlt_floor.
  rewrite inject_Z_plus in Hhi.
  assert (E : inject_Z k / 10 == k # 10).
  { unfold Qdiv, Qeq, inject_Z. simpl. lia. }
  split; [exact E|].
  assert (E1 : inject_Z 1 == 1) by reflexivity.
  rewrite E1 in Hhi.
  split.
  - apply Qlt_shift_div_l; [reflexivity|]. lra.
  - apply Qle_shift_div_r; [reflexivity|]. lra.
Qed.





(** ** Claiming a quest reward *)












Lemma nth_error_set_at_same {A} (i : nat) (v x : A) (xs : list A) :
  nth_error xs i = Some x -> nth_error (set_at i v xs) i = Some v.
Proof.
  revert i. induction xs as [|y r IH]; intros [|i] H; simpl in *;
    try discriminate; auto.
Qed.



(** ** Generating offers *)

Lemma inject_Z_lt_inv (a b : Z) : inject_Z a < inject_Z b -> (a < b)%Z.
Proof. rewrite Zlt_Qlt. exact (fun H => H). Qed.

Lemma inject_Z_le_intro (a b : Z) : (a <= b)%Z -> inject_Z a <= inject_Z b.
Proof. rewrite Zle_Qle. exact (fun H => H). Qed.

Lemma Qfloor_unique (x : Q) (z : Z) :
  inject_Z z <= x -> x < inject_Z (z + 1) -> Qfloor x = z.
Proof.
  intros Hlo Hhi.
  pose proof (Qfloor_le x) as Fl. pose proof (Qlt_floor x) as Fh.
  assert (A : (z < Qfloor x + 1)%Z).
  { apply inject_Z_lt_inv. eapply Qle_lt_trans; eassumption. }
  assert (B : (Qfloor x < z + 1)%Z).
  { apply inject_Z_lt_inv. eapply Qle_lt_trans; eassumption. }
  lia.
Qed.

Lemma Qfloor_integer (x : Q) (z : Z) : x == inject_Z z -> Qfloor x = z.
Proof. intro E. rewrite (Qfloor_comp _ _ E). apply Qfloor_Z. Qed.

(** The quantity drawn between two integer bounds [a <= b]: the draw [r]
    of [0, 1) picks the integer [k] of [a .. b] whose slice of width
    [1 / (b - a + 1)] contains [r]. *)
Lemma quantity_draw (a b : Z) (r : number) :
  (a <= b)%Z -> 0 <= r -> r < 1 ->
  exists k : Z,
    Math_max (inject_Z a)
      (Math_floor (inject_Z a + r * Math_max 1 (inject_Z b - inject_Z a + 1)))
    = inject_Z k /\
    (a <= k <= b)%Z /\
    forall j : Z,
      k = j <->
      inject_Z j - inject_Z a <= r * (inject_Z b - inject_Z a + 1) /\
      r * (inject_Z b - inject_Z a + 1) < inject_Z j - inject_Z a + 1.
Proof.
  intros Hab Hr0 Hr1.
  set (n := inject_Z b - inject_Z a + 1).
  assert (En : n == inject_Z b - inject_Z a + 1) by reflexivity.
  clearbody n.
  assert (Hn : 1 <= n).
  { apply inject_Z_le_intro in Hab. lra. }
  assert (Hmax : Math_max 1 n = n).
  { destruct (Math_max_cases 1 n) as [[_ E]|[L _]]; [exact E|].
    exfalso. exact (Qlt_not_le _ _ L Hn). }
  rewrite Hmax. unfold Math_floor.
  set (k := Qfloor (inject_Z a + r * n)).
  assert (Kl : inject_Z k <= inject_Z a + r * n) by apply Qfloor_le.
  assert (Kh : inject_Z a + r * n < inject_Z (k + 1)) by apply Qlt_floor.
  rewrite inject_Z_plus in Kh.
  assert (E1 : inject_Z 1 == 1) by reflexivity. rewrite E1 in Kh.
  assert (Hrn0 : 0 <= r * n) by (apply Qmult_le_0_compat; lra).
  assert (Hrn1 : r * n < n).
  { assert (0 < (1 - r) * n) by (apply Qmult_lt_0_compat; lra). lra. }
  assert (Ka : (a <= k)%Z).
  { assert (inject_Z a < inject_Z (k + 1)).
    { rewrite inject_Z_plus, E1. lra. }
    apply inject_Z_lt_inv in H. lia. }
  assert (Kb : (k <= b)%Z).
  { assert (inject_Z k < inject_Z (b + 1)).
    { rewrite inject_Z_plus, E1. lra. }
    apply inject_Z_lt_inv in H. lia. }
  exists k. split; [|split; [lia|]].
  - unfold Math_max.
    assert (Q : Qle_bool (inject_Z a) (inject_Z k) = true).
    { apply Qle_bool_iff. now apply inject_Z_le_intro. }
    now rewrite Q.
  - intro j. split.
    + intros <-. split; lra.
    + intros [J1 J2]. unfold k. apply Qfloor_unique.
      * lra.
      * rewrite inject_Z_plus, E1. lra.
Qed.

(** A price clamped to [1, 4] and rounded to one decimal stays in [1, 4]. *)
Lemma rounded_price_bounds (x : number) :
  let price := Math_min 4 (Math_max 1 x) in
  1 <= Math_round (price * 10) / 10 /\ Math_round (price * 10) / 10 <= 4.
Proof.
  intro price.
  assert (P : 1 <= price /\ price <= 4).
  { unfold price.
    destruct (Math_max_cases 1 x) as [[H1 ->]|[H1 ->]];
      destruct (Math_min_cases 4 x) as [[H2 E]|[H2 E]];
      destruct (Math_min_cases 4 1) as [[H3 E3]|[H3 E3]];
      try rewrite E; try rewrite E3; split; lra. }
  destruct P as [P1 P4].
  unfold Math_round. set (k := Qfloor (price * 10 + (1 # 2))).
  assert (Kl : inject_Z k <= price * 10 + (1 # 2)) by apply Qfloor_le.
  assert (Kh : price * 10 + (1 # 2) < inject_Z (k + 1)) by apply Qlt_floor.
  assert (A : (10 <= k)%Z).
  { assert (inject_Z 10 < inject_Z (k + 1)).
    { eapply Qle_lt_trans; [|exact Kh].
      assert (E : inject_Z 10 == 10) by reflexivity. rewrite E. lra. }
    apply inject_Z_lt_inv in H. lia. }
  assert (B : (k <= 40)%Z).
  { assert (inject_Z k < inject_Z 41).
    { eapply Qle_lt_trans; [exact Kl|].
      assert (E : inject_Z 41 == 41) by reflexivity. rewrite E. lra. }
    apply inject_Z_lt_inv in H. lia. }
  apply inject_Z_le_intro in A, B.
  assert (E10 : inject_Z 10 == 10) by reflexivity.
  assert (E40 : inject_Z 40 == 40) by reflexivity.
  rewrite E10 in A. rewrite E40 in B.
  split.
  - apply Qle_shift_div_l; [reflexivity|]. lra.
  - apply Qle_shift_div_r; [reflexivity|]. lra.
Qed.

Ltac Q_to_Z :=
  unfold Qle, Qlt, Qeq, Qminus, Qplus, Qopp, Qmult, inject_Z in *;
  cbn [Qnum Qden] in *; lia.

(** With a whole, non-negative stage and a quantity multiplier of 1 or 1.2
    (the presets), the scaled quantity bounds are whole numbers
    [1 <= a <= b], so the [Math.floor] around them changes nothing. *)
Lemma scaled_bounds_integral (s : Z) (qMult : number) :
  (0 <= s)%Z -> qMult = 1 \/ qMult = 12 # 10 ->
  exists a b : Z,
    (1 <= a <= b)%Z /\
    Math_min 200 (5 + inject_Z s * 10) * qMult == inject_Z a /\
    Math_min 400 (20 + inject_Z s * 20) * qMult == inject_Z b.
Proof.
  intros Hs [-> | ->];
    destruct (Math_min_cases 200 (5 + inject_Z s * 10)) as [[H1 ->]|[H1 ->]];
    destruct (Math_min_cases 400 (20 + inject_Z s * 20)) as [[H2 ->]|[H2 ->]].
  - exists 200%Z, 400%Z. repeat split; try lia; reflexivity.
  - exists 200%Z, (20 + s * 20)%Z. repeat split; Q_to_Z.
  - exists (5 + s * 10)%Z, 400%Z. repeat split; Q_to_Z.
  - exists (5 + s * 10)%Z, (20 + s * 20)%Z. repeat split; Q_to_Z.
  - exists 240%Z, 480%Z. repeat split; try lia; reflexivity.
  - exists 240%Z, (24 + s * 24)%Z. repeat split; Q_to_Z.
  - exists (6 + s * 12)%Z, 480%Z. repeat split; Q_to_Z.
  - exists (6 + s * 12)%Z, (24 + s * 24)%Z. repeat split; Q_to_Z.
Qed.

Lemma preset_event_qMult (ev : option GameEvent) :
  preset_event ev -> qMult_of ev = 1 \/ qMult_of ev = 12 # 10.
Proof.
  destruct ev as [e|]; simpl; [|now left].
  intros (p & Hp & E). rewrite E.
  destruct Hp as [<-|[<-|[<-|[<-|[]]]]]; simpl; auto.
Qed.

Lemma stage_of_integral (prev : GameState) :
  0 <= totalHarvests (stats prev) ->
  exists s : Z, (0 <= s)%Z /\ stage_of prev = inject_Z s.
Proof.
  intro H. exists (Qfloor (totalHarvests (stats prev) / 5)). split; [|reflexivity].
  assert (L : inject_Z 0 <= totalHarvests (stats prev) / 5).
  { apply Qle_shift_div_l; [reflexivity|].
    assert (E : inject_Z 0 * 5 == 0) by reflexivity. rewrite E. exact H. }
  assert (K : inject_Z 0 < inject_Z (Qfloor (totalHarvests (stats prev) / 5) + 1)).
  { eapply Qle_lt_trans; [exact L | apply Qlt_floor]. }
  apply inject_Z_lt_inv in K. lia.
Qed.

Lemma makeOffer_spec (s : Z) (qMult pMult : number) (now : Z) (i : nat)
    (r1 r2 : number) :
  (0 <= s)%Z -> qMult = 1 \/ qMult = 12 # 10 -> 0 <= r1 -> r1 < 1 ->
  let lo := Math_min 200 (5 + inject_Z s * 10) * qMult in
  let hi := Math_min 400 (20 + inject_Z s * 20) * qMult in
  let o := makeOffer (inject_Z s) qMult pMult now i r1 r2 in
  (exists k : Z,
     quantity o = inject_Z k /\ 1 <= inject_Z k /\
     lo <= inject_Z k /\ inject_Z k <= hi /\
     forall j : Z,
       quantity o == inject_Z j <->
       inject_Z j - lo <= r1 * (hi - lo + 1) /\
       r1 * (hi - lo + 1) < inject_Z j - lo + 1) /\
  1 <= pricePerBud o /\ pricePerBud o <= 4.
Proof.
  intros Hs Hq Hr0 Hr1 lo hi o.
  destruct (scaled_bounds_integral s qMult Hs Hq) as (a & b & Hab & Ea & Eb).
  fold lo in Ea. fold hi in Eb.
  split; [|apply rounded_price_bounds].
  assert (Q : quantity o =
              Math_max (inject_Z a)
                (Math_floor (inject_Z a + r1 * Math_max 1 (inject_Z b - inject_Z a + 1)))).
  { assert (Fa : Math_floor lo = inject_Z a)
      by (unfold Math_floor; now rewrite (Qfloor_integer lo a Ea)).
    assert (Fb : Math_floor hi = inject_Z b)
      by (unfold Math_floor; now rewrite (Qfloor_integer hi b Eb)).
    unfold o, makeOffer. cbn [quantity]. fold lo. fold hi.
    rewrite !Fa, !Fb. reflexivity. }
  destruct (quantity_draw a b r1 (proj2 Hab) Hr0 Hr1) as (k & Ek & Kab & Kj).
  exists k. rewrite Q, Ek.
  assert (Ka : inject_Z a <= inject_Z k) by (apply inject_Z_le_intro; lia).
  assert (Kb : inject_Z k <= inject_Z b) by (apply inject_Z_le_intro; lia).
  assert (K1 : inject_Z 1 <= inject_Z k) by (apply inject_Z_le_intro; lia).
  split; [reflexivity|]. split; [exact K1|].
  split; [rewrite Ea; exact Ka|]. split; [rewrite Eb; exact Kb|].
  intro j. rewrite Ea, Eb. split.
  - intro E. apply (proj1 (Kj j)). unfold Qeq in E. simpl in E. lia.
  - intro J. rewrite (proj2 (Kj j) J). reflexivity.
Qed.



(** The first offer of that batch: stage 0 and no event give the range
    5 .. 20, and the draw 0.5 picks quantity 13 and price 2. *)
Example generateTradeOffers_sample :
  nth_error (offers (trade (generateTradeOffers (fun _ => 1 # 2) 1000 INITIAL_STATE))) 0
  = Some {| offer_id := "offer-1000-0"; quantity := inject_Z 13;
            pricePerBud := inject_Z 20 / 10 |}.
Proof. reflexivity. Qed.

(** ** The refresh cooldown *)

Lemma canRefresh_false_iff (nextRefreshAt : number) (now : Z) :
  canRefresh nextRefreshAt now = false <-> inject_Z now < nextRefreshAt.
Proof.
  unfold canRefresh, refreshCooldownMs, eqb.
  destruct (Math_max_cases 0 (nextRefreshAt - inject_Z now)) as [[H ->]|[H ->]].
  - destruct (Qeq_bool (nextRefreshAt - inject_Z now) 0) eqn:E.
    + apply Qeq_bool_iff in E. split; [discriminate|]. intro L. lra.
    + split; [intros _|reflexivity].
      apply Qeq_bool_neq in E. apply Qnot_le_lt. intro L. apply E. lra.
  - split; [discriminate|]. intro L. lra.
Qed.

(** C5 as stated fails: [generateTradeOffers] never looks at
    [nextRefreshAt].  Called at time 2000 on a state whose cooldown runs
    until 31000, it replaces the two offers by three new ones and moves
    [nextRefreshAt] to 32000. *)
Lemma generateTradeOffers_ignores_cooldown :
  inject_Z 2000 < nextRefreshAt (trade demoState) /\
  generateTradeOffers (fun _ => 1 # 2) 2000 demoState <> demoState /\
  List.length (offers (trade demoState)) = 2%nat /\
  List.length (offers (trade (generateTradeOffers (fun _ => 1 # 2) 2000 demoState))) = 3%nat /\
  nextRefreshAt (trade (generateTradeOffers (fun _ => 1 # 2) 2000 demoState)) == 32000.
Proof.
  split; [reflexivity|]. split; [|repeat split].
  intro E. apply (f_equal (fun s => List.length (offers (trade s)))) in E.
  discriminate E.
Qed.

(** C5, amended.  The cooldown is enforced by the trade panel: while the
    time the panel sampled is before [nextRefreshAt] (and only then) the
    refresh button is disabled, so a click leaves the whole state as it is.
    Once the cooldown is over a click runs [generateTradeOffers], which
    itself has no cooldown check. *)
Theorem clickRefresh_gated (panelNow : Z) (rnd : nat -> number) (now : Z)
    (s : GameState) :
  (canRefresh (nextRefreshAt (trade s)) panelNow = false <->
     inject_Z panelNow < nextRefreshAt (trade s)) /\
  (inject_Z panelNow < nextRefreshAt (trade s) -> clickRefresh panelNow rnd now s = s) /\
  (nextRefreshAt (trade s) <= inject_Z panelNow ->
     clickRefresh panelNow rnd now s = generateTradeOffers rnd now s).
Proof.
  split; [apply canRefresh_false_iff|]. unfold clickRefresh. split; intro H.
  - apply canRefresh_false_iff in H. now rewrite H.
  - destruct (canRefresh (nextRefreshAt (trade s)) panelNow) eqn:E; [reflexivity|].
    apply canRefresh_false_iff in E. exfalso. exact (Qlt_not_le _ _ E H).
Qed.

Lemma clickRefresh_gated_witness :
  inject_Z 2000 < nextRefreshAt (trade demoState) /\
  clickRefresh 2000 (fun _ => 1 # 2) 2000 demoState = demoState.
Proof.
  assert (L : inject_Z 2000 < nextRefreshAt (trade demoState)) by reflexivity.
  exact (conj L (proj1 (proj2 (clickRefresh_gated 2000 (fun _ => 1 # 2) 2000 demoState)) L)).
Defined.

(** ** Growth *)

Section PlantSlotFacts.

Variable PHASES : list Phase.
Variable Strain : Type.
Variable getStrain : string -> option Strain.
Variable getTimeMultiplier : string -> number.

(** The catalog holds no negative duration and no negative multiplier. *)
Hypothesis durations_nonneg : Forall (fun ph => 0 <= duration ph) PHASES.
Hypothesis multipliers_nonneg : forall strainId, 0 <= getTimeMultiplier strainId.

Local Abbreviation step1 := (advance PHASES Strain getStrain getTimeMultiplier).
Local Abbreviation steps := (advances PHASES Strain getStrain getTimeMultiplier).
Local Abbreviation in_range := (plant_in_range PHASES getTimeMultiplier).

Lemma soilMultiplier_pos (plant : Plant) : 0 < soilMultiplier plant.
Proof. unfold soilMultiplier. destruct (soilType (modifiers plant)); reflexivity. Qed.

Lemma phaseDuration_nonneg (ph : Phase) (plant : Plant) :
  In ph PHASES -> 0 <= phaseDuration getTimeMultiplier ph plant.
Proof.
  intro Hin. unfold phaseDuration.
  pose proof (proj1 (Forall_forall _ _) durations_nonneg ph Hin) as D.
  pose proof (multipliers_nonneg (strainId plant)) as M.
  pose proof (soilMultiplier_pos plant) as S.
  apply Qmult_le_0_compat; [apply Qmult_le_0_compat; assumption | lra].
Qed.

(** One tick keeps the plant inside its phase, never lowers [phaseIndex],
    and leaves a plant of the last phase in the last phase. *)
Lemma advance_step (plant : Plant) (localElapsed : number) :
  in_range plant -> 0 <= localElapsed ->
  in_range (fst (step1 (plant, localElapsed))) /\
  0 <= snd (step1 (plant, localElapsed)) /\
  (phaseIndex plant <= phaseIndex (fst (step1 (plant, localElapsed))))%nat /\
  (S (phaseIndex plant) = List.length PHASES ->
   phaseIndex (fst (step1 (plant, localElapsed))) = phaseIndex plant).
Proof.
  intros (ph & Hph & E0 & E1) L0.
  assert (Keep : in_range plant) by (exists ph; auto).
  unfold advance, tick. rewrite Hph.
  destruct (getStrain (strainId plant)) as [strain|]; cbn [fst snd];
    [|repeat split; auto].
  destruct (geb (localElapsed + 1) (phaseDuration getTimeMultiplier ph plant)) eqn:G.
  - destruct (S (phaseIndex plant) <? List.length PHASES)%nat eqn:N; cbn [fst snd].
    + apply Nat.ltb_lt in N.
      split; [|split; [apply Qle_refl | split; [cbn; lia | intro; lia]]].
      destruct (nth_error PHASES (S (phaseIndex plant))) as [ph'|] eqn:Hn.
      * exists ph'. cbn. repeat split; try assumption; try apply Qle_refl.
        apply (phaseDuration_nonneg ph' (mergePlant plant (onUpdateArgs 0 (S (phaseIndex plant))))).
        eapply nth_error_In; eassumption.
      * apply nth_error_None in Hn. lia.
    + split; [exact Keep | split; [lra | split; [lia | reflexivity]]].
  - cbn [fst snd]. unfold geb in G.
    assert (Lt : localElapsed + 1 < phaseDuration getTimeMultiplier ph plant).
    { apply Qnot_le_lt. intro Hle. apply Qle_bool_iff in Hle. congruence. }
    split; [|split; [lra | split; [cbn; lia | reflexivity]]].
    exists ph. cbn. repeat split; try assumption; try lra.
    now apply Qlt_le_weak.
Qed.

Lemma advances_keep (n : nat) (plant : Plant) (localElapsed : number) :
  in_range plant -> 0 <= localElapsed ->
  in_range (fst (steps n (plant, localElapsed))) /\
  0 <= snd (steps n (plant, localElapsed)) /\
  (phaseIndex plant <= phaseIndex (fst (steps n (plant, localElapsed))))%nat /\
  (S (phaseIndex plant) = List.length PHASES ->
   phaseIndex (fst (steps n (plant, localElapsed))) = phaseIndex plant).
Proof.
  revert plant localElapsed.
  induction n as [|n IH]; intros plant localElapsed Hp Hl.
  - cbn. repeat split; auto.
  - destruct (advance_step plant localElapsed Hp Hl) as (P1 & L1 & M1 & T1).
    change (steps (S n) (plant, localElapsed))
      with (steps n (step1 (plant, localElapsed))).
    destruct (step1 (plant, localElapsed)) as [plant1 local1].
    cbn [fst snd] in *.
    destruct (IH plant1 local1 P1 L1) as (P2 & L2 & M2 & T2).
    repeat split; auto; lia.
Qed.

Lemma advances_add (m k : nat) (st : Plant * number) :
  steps (m + k) st = steps k (steps m st).
Proof.
  revert st. induction m as [|m IH]; intro st; [reflexivity|].
  change (steps (S m + k) st) with (steps (m + k) (step1 st)).
  now rewrite IH.
Qed.

(** C6.  Start from a plant that is inside its current phase (the phase
    exists and [0 <= elapsedInPhase <= phaseDuration]) with a local
    counter that is not negative, and run any number of ticks.  At every
    point of the run the stored [elapsedInPhase] lies in
    [0, phaseDuration] of the phase the plant is then in and [phaseIndex]
    is a valid phase; between any two points of the run [phaseIndex] does
    not decrease; and from the point where the plant is in the last phase
    its [phaseIndex] stays the same. *)
Theorem growth_invariants (m n : nat) (plant : Plant) (localElapsed : number) :
  in_range plant -> 0 <= localElapsed -> (m <= n)%nat ->
  let earlier := fst (steps m (plant, localElapsed)) in
  let later := fst (steps n (plant, localElapsed)) in
  (exists d, currentPhaseDuration PHASES getTimeMultiplier later = Some d /\
             0 <= elapsedInPhase later /\ elapsedInPhase later <= d) /\
  (phaseIndex later < List.length PHASES)%nat /\
  (phaseIndex earlier <= phaseIndex later)%nat /\
  (S (phaseIndex earlier) = List.length PHASES ->
   phaseIndex later = phaseIndex earlier).
Proof.
  intros Hp Hl Hmn earlier later.
  destruct (advances_keep m plant localElapsed Hp Hl) as (P1 & L1 & _ & _).
  assert (E : steps n (plant, localElapsed) =
              steps (n - m) (steps m (plant, localElapsed))).
  { rewrite <- advances_add. f_equal. lia. }
  subst earlier later. rewrite E.
  destruct (steps m (plant, localElapsed)) as [plant1 local1].
  cbn [fst snd] in *.
  destruct (advances_keep (n - m) plant1 local1 P1 L1) as (P2 & _ & M2 & T2).
  split; [|split; [|split; assumption]].
  - destruct P2 as (ph & Hph & A & B).
    exists (phaseDuration getTimeMultiplier ph (fst (steps (n - m) (plant1, local1)))).
    unfold currentPhaseDuration. rewrite Hph. auto.
  - destruct P2 as (ph & Hph & _). apply nth_error_Some. congruence.
Qed.

End PlantSlotFacts.

Lemma demoPHASES_nonneg : Forall (fun ph => 0 <= duration ph) demoPHASES.
Proof. repeat constructor; discriminate. Defined.

Lemma demoTimeMultiplier_nonneg (strainId : string) :
  0 <= demoTimeMultiplier strainId.
Proof. discriminate. Defined.

Lemma demoPlant_in_range : plant_in_range demoPHASES demoTimeMultiplier demoPlant.
Proof.
  exists {| phase_name := "Germination"; duration := 60;
            waterRecommended := true; fertilizerRecommended := false |}.
  split; [reflexivity|]. split; discriminate.
Defined.

Lemma growth_invariants_witness :
  let later := fst (advances demoPHASES unit demoGetStrain demoTimeMultiplier 3
                      (demoPlant, 59)) in
  plant_in_range demoPHASES demoTimeMultiplier demoPlant /\
  (exists d, currentPhaseDuration demoPHASES demoTimeMultiplier later = Some d /\
             0 <= elapsedInPhase later /\ elapsedInPhase later <= d) /\
  (phaseIndex later < 6)%nat /\
  (phaseIndex demoPlant <= phaseIndex later)%nat.
Proof.
  intro later.
  assert (L : 0 <= 59) by discriminate.
  destruct (growth_invariants demoPHASES unit demoGetStrain demoTimeMultiplier
              demoPHASES_nonneg demoTimeMultiplier_nonneg
              0 3 demoPlant 59 demoPlant_in_range L (Nat.le_0_l 3))
    as (A & B & C & _).
  exact (conj demoPlant_in_range (conj A (conj B C))).
Defined.

(** The tick never reads the event: ticking under any event gives what
    ticking without it gives, with the event carried along. *)
Lemma slotTick_event_independent (PHASES : list Phase) (Strain : Type)
    (getStrain : string -> option Strain) (getTimeMultiplier : string -> number)
    (slotIndex : nat) (ev : option GameEvent) (s : GameState) (localElapsed : number) :
  slotTick PHASES Strain getStrain getTimeMultiplier slotIndex (with_event ev s) localElapsed
  = (with_event ev
       (fst (slotTick PHASES Strain getStrain getTimeMultiplier slotIndex s localElapsed)),
     snd (slotTick PHASES Strain getStrain getTimeMultiplier slotIndex s localElapsed)).
Proof.
  unfold slotTick. cbn [slots with_event].
  destruct (nth_error (slots s) slotIndex) as [[plant|]|] eqn:N; try reflexivity.
  destruct (tick PHASES Strain getStrain getTimeMultiplier plant localElapsed)
    as [[[elapsed idx]|] l]; [|reflexivity].
  cbn [fst snd]. unfold updatePlant. cbn [slots with_event]. now rewrite N.
Qed.

(** Without a growth effect the code's duration is the specified one. *)
Lemma phaseDuration_without_growth_effect (getTimeMultiplier : string -> number)
    (ph : Phase) (plant : Plant) (ev : option GameEvent) :
  match ev with Some e => growthMultiplier (effects e) = None | None => True end ->
  specPhaseDuration getTimeMultiplier ph plant ev == phaseDuration getTimeMultiplier ph plant.
Proof.
  unfold specPhaseDuration, phaseDuration.
  destruct ev as [e|]; [intros ->; cbn [over]|intros _]; ring.
Qed.

(** C1 (the code leaves the event out).  The tick multiplies the phase's
    base duration by the strain multiplier and the soil multiplier only.
    With the preset event "mystic-fog" active, whose [growthMultiplier] is
    1.2, a basic-soil plant of a strain with multiplier 1 in a 60-second
    phase gets a phase duration of 60, where the specified product is 72;
    its tick at 59 elapsed seconds moves it to the next phase. *)
Theorem phaseDuration_ignores_event :
  let ph := {| phase_name := "Germination"; duration := 60;
               waterRecommended := true; fertilizerRecommended := false |} in
  let after := slotTick demoPHASES unit demoGetStrain demoTimeMultiplier 0 foggyGarden 59 in
  event foggyGarden = Some mysticFog /\
  growthMultiplier (effects mysticFog) = Some (12 # 10) /\
  nth_error (slots foggyGarden) 0 = Some (Some demoPlant) /\
  nth_error demoPHASES (phaseIndex demoPlant) = Some ph /\
  phaseDuration demoTimeMultiplier ph demoPlant == 60 /\
  specPhaseDuration demoTimeMultiplier ph demoPlant (event foggyGarden) == 72 /\
  after = (updatePlant 0 (onUpdateArgs 0 1) foggyGarden, 0) /\
  match nth_error (slots (fst after)) 0 with
  | Some (Some plant) => phaseIndex plant = 1%nat /\ elapsedInPhase plant = 0
  | _ => False
  end.
Proof. cbv zeta. repeat split. Qed.

(** ** Saving and loading *)

(** *** Objects *)

Lemma Obj_get_replace_same (k : string) (v : jsval) (o : Obj.t) :
  Obj.has k o = true -> Obj.get k (Obj.replace k v o) = Some v.
Proof.
  unfold Obj.has. induction o as [|[k' w] r IH]; simpl; [discriminate|].
  destruct (Obj.get k r) as [x|] eqn:G.
  - intros _. now rewrite IH.
  - destruct (String.eqb k' k) eqn:E; [|discriminate]. intros _.
    assert (N : Obj.get k (Obj.replace k v r) = None).
    { clear IH. induction r as [|[k2 w2] r2 IH2]; simpl in *; [reflexivity|].
      destruct (Obj.get k r2); [discriminate|].
      destruct (String.eqb k2 k); [discriminate|]. now rewrite IH2. }
    now rewrite N.
Qed.

Lemma Obj_get_replace_other (k k' : string) (v : jsval) (o : Obj.t) :
  k' <> k -> Obj.get k (Obj.replace k' v o) = Obj.get k o.
Proof.
  intro N. induction o as [|[k2 w] r IH]; simpl; [reflexivity|].
  rewrite IH. destruct (Obj.get k r); [reflexivity|].
  destruct (String.eqb k2 k) eqn:E; [|reflexivity].
  apply String.eqb_eq in E. subst k2.
  now rewrite (proj2 (String.eqb_neq k k') (not_eq_sym N)).
Qed.

Lemma Obj_get_app (k : string) (o o' : Obj.t) :
  Obj.get k (o ++ o') =
  match Obj.get k o' with Some w => Some w | None => Obj.get k o end.
Proof.
  induction o as [|[k2 w] r IH]; simpl.
  - now destruct (Obj.get k o').
  - rewrite IH. now destruct (Obj.get k o').
Qed.

Lemma Obj_get_set_same (k : string) (v : jsval) (o : Obj.t) :
  Obj.get k (Obj.set k v o) = Some v.
Proof.
  unfold Obj.set. destruct (Obj.has k o) eqn:H.
  - now apply Obj_get_replace_same.
  - rewrite Obj_get_app. simpl. now rewrite String.eqb_refl.
Qed.

Lemma Obj_get_set_other (k k' : string) (v : jsval) (o : Obj.t) :
  k' <> k -> Obj.get k (Obj.set k' v o) = Obj.get k o.
Proof.
  intro N. unfold Obj.set. destruct (Obj.has k' o).
  - now apply Obj_get_replace_other.
  - rewrite Obj_get_app. simpl.
    now rewrite (proj2 (String.eqb_neq k' k) N).
Qed.

(** Reading a spread: the source's property if it has the key, else the
    target's. *)
Lemma Obj_get_spread (k : string) (o src : Obj.t) :
  Obj.get k (Obj.spread o src) =
  match Obj.get k src with Some w => Some w | None => Obj.get k o end.
Proof.
  unfold Obj.spread. revert o.
  induction src as [|[k' v] r IH]; intro o; simpl; [reflexivity|].
  rewrite IH. destruct (Obj.get k r); [reflexivity|].
  destruct (String.eqb k' k) eqn:E.
  - apply String.eqb_eq in E. subst k'. apply Obj_get_set_same.
  - apply String.eqb_neq in E. now apply Obj_get_set_other.
Qed.

(** *** Loading *)




(** The old save loaded in full: saved balances and harvest count, default
    values everywhere else. *)
Example loadState_oldSave :
  loadState (Parsed oldSave) =
  jsState
    {| nugs := 250; buds := 12; slots := [None; None]; upgrades := [];
       trade := INITIAL_TRADE; event := None; quests := DEFAULT_QUESTS;
       stats := {| totalHarvests := 7; bestHarvest := 0; totalNugsEarned := 0;
                   totalBudsHarvested := 0; totalBudsSold := 0; totalTrades := 0 |};
       settings := {| sfxEnabled := true; randomEventsEnabled := true |} |}.
Proof. reflexivity. Qed.

(** *** The round trip *)

Lemma jsonOf_slots (xs : list (option Plant)) :
  jsonOf (JArr (map jsSlot xs)) = JArr (map jsSlot xs).
Proof.
  cbn [jsonOf]. f_equal. rewrite map_map. apply map_ext.
  intros [p|]; reflexivity.
Qed.

Lemma jsonOf_offers (xs : list TradeOffer) :
  jsonOf (JArr (map jsOffer xs)) = JArr (map jsOffer xs).
Proof.
  cbn [jsonOf]. f_equal. rewrite map_map. apply map_ext. reflexivity.
Qed.

Lemma jsonOf_reward (r : Reward) : jsonOf (jsReward r) = jsReward r.
Proof. destruct r as [[n|] [b|]]; reflexivity. Qed.

Lemma jsonOf_quest (q : Quest) : jsonOf (jsQuest q) = jsQuest q.
Proof.
  pose proof (jsonOf_reward (reward q)) as R. unfold jsQuest.
  destruct (jsReward (reward q)) eqn:E; cbn [jsonOf] in *; try (rewrite R); try reflexivity.
  unfold jsReward in E. destruct (reward q) as [[n|] [b|]]; discriminate.
Qed.

Lemma jsonOf_quests (qs : list Quest) : jsonOf (jsQuests qs) = jsQuests qs.
Proof.
  unfold jsQuests. cbn [jsonOf]. f_equal. rewrite map_map. apply map_ext.
  intro q. pose proof (jsonOf_quest q) as H. unfold jsQuest in *. exact H.
Qed.

Lemma jsonOf_effects (e : Effects) : jsonOf (jsEffects e) = jsEffects e.
Proof. destruct e as [[p|] [q|] [g|]]; reflexivity. Qed.

Lemma jsonOf_event (e : GameEvent) : jsonOf (jsEvent e) = jsEvent e.
Proof.
  pose proof (jsonOf_effects (effects e)) as R. unfold jsEvent.
  destruct (jsEffects (effects e)) eqn:E; cbn [jsonOf] in *; try (rewrite R); try reflexivity.
  unfold jsEffects in E. destruct (effects e) as [[p|] [q|] [g|]]; discriminate.
Qed.

Lemma jsonOf_upgrades (u : list (string * number)) :
  jsonOf (jsUpgrades u) = jsUpgrades u.
Proof.
  unfold jsUpgrades. cbn [jsonOf]. f_equal.
  induction u as [|[k v] r IH]; cbn; [reflexivity|]. now rewrite IH.
Qed.

Lemma jsonOf_obj_cons (k : string) (x : jsval) (r : Obj.t) :
  jsonOf (JObj ((k, x) :: r)) =
  JObj (match x with JUndefined => [] | _ => [(k, jsonOf x)] end
        ++ ownProps (jsonOf (JObj r))).
Proof. destruct x; reflexivity. Qed.

Lemma jsonOf_trade (t : Trade) : jsonOf (JObj (jsTrade t)) = JObj (jsTrade t).
Proof.
  unfold jsTrade. rewrite jsonOf_obj_cons, jsonOf_offers. reflexivity.
Qed.

Lemma jsonOf_stats (s : Stats) : jsonOf (JObj (jsStats s)) = JObj (jsStats s).
Proof. reflexivity. Qed.

Lemma jsonOf_settings (s : Settings) : jsonOf (jsSettings s) = jsSettings s.
Proof. reflexivity. Qed.

(** What is written for a state: the state object itself, less the key
    [event] when there is no event. *)
Lemma jsonOf_state (s : GameState) :
  jsonOf (JObj (jsState s)) =
  JObj ([ ("nugs", JNum (nugs s));
          ("buds", JNum (buds s));
          ("slots", JArr (map jsSlot (slots s)));
          ("upgrades", jsUpgrades (upgrades s));
          ("trade", JObj (jsTrade (trade s))) ]%string
        ++ match event s with Some e => [("event"%string, jsEvent e)] | None => [] end
        ++ [ ("quests", jsQuests (quests s));
             ("stats", JObj (jsStats (stats s)));
             ("settings", jsSettings (settings s)) ]%string).
Proof.
  unfold jsState. rewrite !jsonOf_obj_cons.
  rewrite jsonOf_slots, jsonOf_upgrades, jsonOf_trade, jsonOf_quests,
    jsonOf_stats, jsonOf_settings.
  destruct (event s) as [e|]; [rewrite jsonOf_event|]; reflexivity.
Qed.

(** *** The state object determines the state *)

Lemma map_injective {A B} (f : A -> B) :
  (forall x y, f x = f y -> x = y) ->
  forall l l', map f l = map f l' -> l = l'.
Proof.
  intros Hf l. induction l as [|x r IH]; intros [|y r'] H; simpl in H;
    try discriminate; [reflexivity|].
  injection H as Hx Hr. f_equal; auto.
Qed.

Lemma SoilType_str_injective (a b : SoilType) :
  SoilType_str a = SoilType_str b -> a = b.
Proof. destruct a, b; simpl; intro H; try discriminate; reflexivity. Qed.

Lemma QuestType_str_injective (a b : QuestType) :
  QuestType_str a = QuestType_str b -> a = b.
Proof. destruct a, b; simpl; intro H; try discriminate; reflexivity. Qed.

Lemma jsPlant_injective (p q : Plant) : jsPlant p = jsPlant q -> p = q.
Proof.
  destruct p as [i1 s1 n1 e1 t1 [w1 f1 o1 lw1 lf1 q1]],
           q as [i2 s2 n2 e2 t2 [w2 f2 o2 lw2 lf2 q2]].
  unfold jsPlant, jsModifiers; simpl. intro H.
  injection H; intros; subst.
  repeat match goal with
         | H : SoilType_str _ = SoilType_str _ |- _ =>
             apply SoilType_str_injective in H; subst
         | H : Z.of_nat _ = Z.of_nat _ |- _ => apply Nat2Z.inj in H; subst
         end.
  reflexivity.
Qed.

Lemma jsSlot_injective (a b : option Plant) : jsSlot a = jsSlot b -> a = b.
Proof.
  destruct a as [p|], b as [q|]; simpl; intro H; try discriminate; [|reflexivity].
  f_equal. now apply jsPlant_injective.
Qed.

Lemma jsOffer_injective (a b : TradeOffer) : jsOffer a = jsOffer b -> a = b.
Proof.
  destruct a, b. unfold jsOffer; simpl. intro H. injection H; intros; subst.
  reflexivity.
Qed.

Lemma jsEffects_injective (a b : Effects) : jsEffects a = jsEffects b -> a = b.
Proof.
  destruct a as [[p1|] [q1|] [g1|]], b as [[p2|] [q2|] [g2|]];
    unfold jsEffects; simpl; intro H; try discriminate;
    try (injection H; intros; subst); reflexivity.
Qed.

Lemma jsEvent_injective (a b : GameEvent) : jsEvent a = jsEvent b -> a = b.
Proof.
  destruct a as [i1 n1 d1 t1 e1], b as [i2 n2 d2 t2 e2].
  unfold jsEvent; simpl. intro H.
  assert (He : jsEffects e1 = jsEffects e2) by congruence.
  apply jsEffects_injective in He.
  injection H; intros; subst. reflexivity.
Qed.

Lemma jsReward_injective (a b : Reward) : jsReward a = jsReward b -> a = b.
Proof.
  destruct a as [[n1|] [b1|]], b as [[n2|] [b2|]];
    unfold jsReward; simpl; intro H; try discriminate;
    try (injection H; intros; subst); reflexivity.
Qed.

Lemma jsQuest_injective (a b : Quest) : jsQuest a = jsQuest b -> a = b.
Proof.
  destruct a as [i1 t1 d1 g1 p1 r1 c1], b as [i2 t2 d2 g2 p2 r2 c2].
  unfold jsQuest; simpl. intro H.
  assert (Hr : jsReward r1 = jsReward r2) by congruence.
  apply jsReward_injective in Hr.
  injection H; intros; subst.
  repeat match goal with
         | H : QuestType_str _ = QuestType_str _ |- _ =>
             apply QuestType_str_injective in H; subst
         end.
  reflexivity.
Qed.

Lemma jsState_injective (s s' : GameState) : jsState s = jsState s' -> s = s'.
Proof.
  destruct s as [n1 b1 sl1 u1 [o1 r1] e1 q1 [a1 a2 a3 a4 a5 a6] [x1 y1]],
           s' as [n2 b2 sl2 u2 [o2 r2] e2 q2 [c1 c2 c3 c4 c5 c6] [x2 y2]].
  unfold jsState, jsTrade, jsStats, jsSettings, jsQuests, jsUpgrades; simpl.
  intro H. injection H as Hn Hb Hsl Hu Ho Hr He Hq; intros; subst.
  apply (map_injective jsSlot jsSlot_injective) in Hsl.
  apply (map_injective jsOffer jsOffer_injective) in Ho.
  apply (map_injective jsQuest jsQuest_injective) in Hq.
  apply (map_injective (fun kv : string * number => (fst kv, JNum (snd kv)))) in Hu.
  2: { intros [k v] [k' v']; simpl; intro E; injection E; intros; subst; reflexivity. }
  assert (e1 = e2).
  { destruct e1 as [e1|], e2 as [e2|]; try reflexivity.
    - f_equal. now apply jsEvent_injective.
    - unfold jsEvent in He. discriminate.
    - unfold jsEvent in He. discriminate. }
  subst. reflexivity.
Qed.

(** C8.  A state that is saved and loaded again comes back as the same
    state: [loadState] applied to what [JSON.stringify] wrote for the object
    of [s] gives the object of [s], key by key and in the same order, and
    that object is the object of no other state. *)
Theorem load_save_roundtrip (s : GameState) :
  loadState (saveState (jsState s)) = jsState s /\
  forall s', jsState s' = loadState (saveState (jsState s)) -> s' = s.
Proof.
  assert (R : loadState (saveState (jsState s)) = jsState s).
  { unfold saveState. rewrite jsonOf_state.
    destruct (event s) as [e|] eqn:E; unfold loadState, jsState; rewrite E;
      reflexivity. }
  split; [exact R|]. intros s' H. rewrite R in H. now apply jsState_injective.
Qed.

Lemma load_save_roundtrip_witness :
  loadState (saveState (jsState foggyGarden)) = jsState foggyGarden /\
  jsState foggyGarden = loadState (saveState (jsState foggyGarden)) /\
  foggyGarden = foggyGarden.
Proof.
  destruct (load_save_roundtrip foggyGarden) as [R Inj].
  exact (conj R (conj (eq_sym R) (Inj foggyGarden (eq_sym R)))).
Defined.

(** * The rest of the hook and of the two components *)

(** ** Quests over time *)
















(** ** Health of the states a game reaches *)

(** A successful haggle on a price [p] of [0.25, 5] gives a price of
    [p, 5], above [p] unless [p] is 5 already. *)
Lemma raised_price_bounds (p : number) :
  1 # 4 <= p -> p <= 5 ->
  p <= Math_min 5 (Math_round (p * (12 # 10) * 10) / 10) /\
  Math_min 5 (Math_round (p * (12 # 10) * 10) / 10) <= 5 /\
  (p < 5 -> p < Math_min 5 (Math_round (p * (12 # 10) * 10) / 10)).
Proof.
  intros Hlo Hhi.
  destruct (round_one_decimal (p * (12 # 10))) as (k & _ & Rlo & Rhi).
  destruct (Math_min_cases 5 (Math_round (p * (12 # 10) * 10) / 10))
    as [[H ->]|[H ->]]; repeat split; try lra.
Qed.

Lemma revenue_nonneg (o : TradeOffer) :
  offer_ok o -> 0 <= Math_floor (quantity o * pricePerBud o).
Proof.
  intros ((k & Ek & Hk) & P1 & _). rewrite Ek.
  assert (K : 1 <= inject_Z k) by (apply (inject_Z_le_intro 1 k); exact Hk).
  assert (M : 0 <= inject_Z k * pricePerBud o) by (apply Qmult_le_0_compat; lra).
  unfold Math_floor.
  assert (F : inject_Z 0 < inject_Z (Qfloor (inject_Z k * pricePerBud o) + 1)).
  { eapply Qle_lt_trans; [exact M | apply Qlt_floor]. }
  apply inject_Z_lt_inv in F. apply (inject_Z_le_intro 0). lia.
Qed.

Lemma advanceQuest_ok (ty : QuestType) (amount : number) (q : Quest) :
  0 <= amount -> quest_ok q -> quest_ok (advanceQuest ty amount q).
Proof.
  intros Ha (P0 & P1 & R1 & R2). unfold advanceQuest.
  destruct (QuestType_eqb (quest_type q) ty && negb (claimed q));
    [|repeat split; assumption].
  unfold quest_ok; cbn.
  destruct (Math_min_cases (goal q) (progress q + amount)) as [[H ->]|[H ->]];
    repeat split; try assumption; lra.
Qed.

Lemma Forall_set_at {A} (P : A -> Prop) (i : nat) (v : A) (xs : list A) :
  Forall P xs -> P v -> Forall P (set_at i v xs).
Proof.
  intros H Hv. revert i. induction H as [|x r Hx Hr IH]; intros [|i]; simpl;
    constructor; auto.
Qed.

Lemma Forall_splice1 {A} (P : A -> Prop) (i : nat) (xs : list A) :
  Forall P xs -> Forall P (splice1 i xs).
Proof.
  intro H. revert i. induction H as [|x r Hx Hr IH]; intros [|i]; simpl;
    auto.
Qed.

Lemma Forall_filter_keep {A} (P : A -> Prop) (f : A -> bool) (xs : list A) :
  Forall P xs -> Forall P (filter f xs).
Proof.
  intro H. apply Forall_forall. intros x Hx. apply filter_In in Hx.
  exact (proj1 (Forall_forall P xs) H x (proj1 Hx)).
Qed.

Lemma length_set_at {A} (i : nat) (v : A) (xs : list A) :
  List.length (set_at i v xs) = List.length xs.
Proof. revert i. induction xs as [|x r IH]; intros [|i]; simpl; auto. Qed.

Lemma length_splice1_le {A} (i : nat) (xs : list A) :
  (List.length (splice1 i xs) <= List.length xs)%nat.
Proof.
  revert i. induction xs as [|x r IH]; intros [|i]; simpl; auto.
  specialize (IH i). lia.
Qed.

Lemma makeOffer_ok (s : Z) (qMult pMult : number) (now : Z) (i : nat)
    (r1 r2 : number) :
  (0 <= s)%Z -> qMult = 1 \/ qMult = 12 # 10 -> 0 <= r1 -> r1 < 1 ->
  offer_ok (makeOffer (inject_Z s) qMult pMult now i r1 r2).
Proof.
  intros Hs Hq R0 R1.
  destruct (makeOffer_spec s qMult pMult now i r1 r2 Hs Hq R0 R1)
    as ((k & Ek & K1 & _) & P1 & P4).
  split; [|split; [exact P1 | lra]].
  exists k. split; [exact Ek|].
  assert (inject_Z 0 < inject_Z k) by (change (inject_Z 0) with 0; lra).
  apply inject_Z_lt_inv in H. lia.
Qed.

Lemma healthy_initial : healthy INITIAL_STATE.
Proof.
  constructor; cbn; try discriminate; auto.
  repeat constructor; discriminate.
Qed.

Lemma geb_le (a b : number) : geb a b = true -> b <= a.
Proof. unfold geb. apply Qle_bool_iff. Qed.

Lemma generateTradeOffers_healthy (rnd : nat -> number) (now : Z) (s : GameState) :
  (forall k, 0 <= rnd k /\ rnd k < 1) -> healthy s ->
  healthy (generateTradeOffers rnd now s).
Proof.
  intros Hr [Hn Hb Hh He Ho Hc Hq].
  destruct (stage_of_integral s Hh) as (z & Hz & Ez).
  pose proof (preset_event_qMult _ He) as Q.
  constructor; cbn; auto. rewrite Ez.
  repeat constructor; apply makeOffer_ok; auto; apply Hr.
Qed.

Lemma acceptTradeOffer_healthy (offerId : string) (s : GameState) :
  healthy s -> healthy (fst (acceptTradeOffer offerId s)).
Proof.
  intros [Hn Hb Hh He Ho Hc Hq]. unfold acceptTradeOffer.
  destruct (find _ (offers (trade s))) as [o|] eqn:F; [|constructor; auto].
  destruct (ltb (buds s) (quantity o)) eqn:L; [constructor; auto|].
  apply ltb_ge in L. apply find_some in F. destruct F as [Hin _].
  pose proof (proj1 (Forall_forall _ _) Ho o Hin) as Oo.
  pose proof (revenue_nonneg o Oo) as R.
  assert (Q0 : 0 <= quantity o).
  { destruct Oo as ((k & -> & Hk) & _).
    apply (inject_Z_le_intro 0). lia. }
  constructor; cbn; auto; try lra.
  - now apply Forall_filter_keep.
  - pose proof (filter_length_le (fun o0 => negb (String.eqb (offer_id o0) offerId))
                  (offers (trade s))). lia.
  - clear - Hq Q0. induction Hq; simpl; constructor; auto using advanceQuest_ok.
Qed.

Lemma haggleTradeOffer_healthy (r : number) (offerId : string) (s : GameState) :
  healthy s -> healthy (fst (haggleTradeOffer r offerId s)).
Proof.
  intros [Hn Hb Hh He Ho Hc Hq]. unfold haggleTradeOffer.
  destruct (findIndex _ (offers (trade s))) as [idx|]; [|constructor; auto].
  destruct (nth_error (offers (trade s)) idx) as [current|] eqn:N;
    [|constructor; auto].
  pose proof (proj1 (Forall_forall _ _) Ho current (nth_error_In _ _ N)) as Oc.
  destruct (ltb r (4 # 10)); constructor; cbn; auto.
  - apply Forall_set_at; [exact Ho|].
    destruct Oc as (K & P1 & P5). split; [exact K|]. cbn.
    destruct (raised_price_bounds (pricePerBud current)) as (A & B & _); lra.
  - now rewrite length_set_at.
  - now apply Forall_splice1.
  - pose proof (length_splice1_le idx (offers (trade s))). lia.
Qed.

Lemma claimQuestReward_healthy (questId : string) (s : GameState) :
  healthy s -> healthy (fst (claimQuestReward questId s)).
Proof.
  intros [Hn Hb Hh He Ho Hc Hq]. unfold claimQuestReward.
  destruct (findIndex _ (quests s)) as [idx|]; [|constructor; auto].
  destruct (nth_error (quests s) idx) as [quest|] eqn:N; [|constructor; auto].
  destruct (claimed quest || ltb (progress quest) (goal quest));
    [constructor; auto|].
  pose proof (proj1 (Forall_forall _ _) Hq quest (nth_error_In _ _ N))
    as (P0 & P1 & R1 & R2).
  constructor; cbn; auto; try lra.
  apply Forall_set_at; [exact Hq|]. repeat split; assumption.
Qed.

Lemma triggerRandomEvent_healthy (r : number) (now : Z) (s : GameState) :
  healthy s -> healthy (triggerRandomEvent r now s).
Proof.
  intros [Hn Hb Hh He Ho Hc Hq]. unfold triggerRandomEvent.
  destruct (negb (randomEventsEnabled (settings s))); [constructor; auto|].
  destruct (nth_error presets (Z.to_nat (Qfloor (r * 4)))) as [pick|] eqn:N;
    [|constructor; auto].
  constructor; try assumption.
  exists pick. split; [exact (nth_error_In presets _ N) | reflexivity].
Qed.

Lemma step_healthy (o : Op) (s : GameState) :
  call_ok (Engine o) -> healthy s -> healthy (step o s).
Proof.
  intros Hok H. destruct o; simpl in *.
  - destruct H. constructor; cbn; auto. lra.
  - destruct H as [Hn Hb Hh He Ho Hc Hq]. unfold spendNugs.
    destruct (geb (nugs s) amount) eqn:G; constructor; cbn; auto.
    apply geb_le in G. lra.
  - destruct H. constructor; cbn; auto. apply Math_max_lub_l.
  - destruct H as [Hn Hb Hh He Ho Hc Hq]. unfold spendBuds.
    destruct (geb (buds s) amount) eqn:G; constructor; cbn; auto.
    apply geb_le in G. lra.
  - destruct H as [Hn Hb Hh He Ho Hc Hq]. constructor; cbn; auto; try lra.
    clear - Hq. induction Hq; simpl; constructor; auto.
    apply advanceQuest_ok; [discriminate | assumption].
  - now apply generateTradeOffers_healthy.
  - now apply acceptTradeOffer_healthy.
  - now apply haggleTradeOffer_healthy.
  - now apply claimQuestReward_healthy.
  - destruct H as [Hn Hb Hh He Ho Hc Hq]. constructor; cbn; auto.
    clear - Hq Hok. induction Hq; simpl; constructor; auto using advanceQuest_ok.
  - now apply triggerRandomEvent_healthy.
  - destruct H as [Hn Hb Hh He Ho Hc Hq]. unfold tickEvent.
    destruct (event s) as [e|] eqn:E; [|constructor; auto; now rewrite E].
    destruct (ltb (inject_Z now) (endsAt e)); constructor; cbn; auto;
      now rewrite E.
Qed.

Lemma perform_healthy (c : Call) (s : GameState) :
  call_ok c -> healthy s -> healthy (perform c s).
Proof.
  intros Hok H. destruct c; simpl.
  - now apply step_healthy.
  - destruct H. constructor; cbn; auto.
  - destruct H. constructor; cbn; auto.
  - destruct H. unfold updatePlant.
    destruct (nth_error (slots s) slotIndex) as [[p|]|]; constructor; cbn; auto.
  - destruct H. constructor; cbn; auto.
  - destruct H. constructor; cbn; auto.
Qed.

Lemma performs_healthy (cs : list Call) (s : GameState) :
  Forall call_ok cs -> healthy s -> healthy (performs cs s).
Proof.
  intro Hcs. revert s. induction Hcs as [|c r Hc _ IH]; intros s H; simpl;
    [exact H|].
  apply IH. now apply perform_healthy.
Qed.

Lemma okCalls_ok : Forall call_ok okCalls.
Proof.
  repeat constructor; try discriminate.
Defined.



(** X4.  In every state that a game reaches from the initial state by
    calls with the arguments of a running game ([call_ok]) there are at
    most three offers, and each has a whole quantity of at least 1 and a
    price per bud between 1 and 5, haggling included. *)
Theorem reachable_offers_wellformed (cs : list Call) :
  Forall call_ok cs ->
  (List.length (offers (trade (performs cs INITIAL_STATE))) <= 3)%nat /\
  forall o, In o (offers (trade (performs cs INITIAL_STATE))) ->
    (exists k : Z, quantity o = inject_Z k /\ (1 <= k)%Z) /\
    1 <= pricePerBud o /\ pricePerBud o <= 5.
Proof.
  intro H. destruct (performs_healthy cs INITIAL_STATE H healthy_initial).
  split; [assumption|]. intros o Ho.
  exact (proj1 (Forall_forall _ _) healthy_offers0 o Ho).
Qed.

Lemma reachable_offers_wellformed_witness :
  Forall call_ok okCalls /\
  (List.length (offers (trade (performs okCalls INITIAL_STATE))) <= 3)%nat.
Proof.
  exact (conj okCalls_ok (proj1 (reachable_offers_wellformed okCalls okCalls_ok))).
Defined.

(** X5.  In every state that a game reaches from the initial state by
    calls with the arguments of a running game ([call_ok]), every quest's
    progress lies between 0 and its goal. *)
Theorem reachable_quest_progress_in_range (cs : list Call) :
  Forall call_ok cs ->
  forall q, In q (quests (performs cs INITIAL_STATE)) ->
    0 <= progress q /\ progress q <= goal q.
Proof.
  intros H q Hq. destruct (performs_healthy cs INITIAL_STATE H healthy_initial).
  destruct (proj1 (Forall_forall _ _) healthy_quests0 q Hq) as (A & B & _).
  split; assumption.
Qed.

Lemma reachable_quest_progress_in_range_witness :
  Forall call_ok okCalls /\
  forall q, In q (quests (performs okCalls INITIAL_STATE)) ->
    0 <= progress q /\ progress q <= goal q.
Proof.
  exact (conj okCalls_ok (reachable_quest_progress_in_range okCalls okCalls_ok)).
Defined.

(** ** Buds under arbitrary arguments *)





(** ** Haggling and selling, seen from the panel *)

(** X7.  A successful haggle never lowers a price: for an offer priced
    between 0.25 and 5, a draw below 0.4 leaves the offer in place with its
    id and quantity and a price that is at least the old one and at most 5,
    and strictly higher unless the price was 5 already. *)
Theorem haggle_never_lowers_price (r : number) (offerId : string) (prev : GameState)
    (idx : nat) (current : TradeOffer) :
  findIndex (fun o => String.eqb (offer_id o) offerId) (offers (trade prev)) = Some idx ->
  nth_error (offers (trade prev)) idx = Some current ->
  1 # 4 <= pricePerBud current -> pricePerBud current <= 5 ->
  r < 4 # 10 ->
  exists raised,
    nth_error (offers (trade (fst (haggleTradeOffer r offerId prev)))) idx = Some raised /\
    offer_id raised = offer_id current /\ quantity raised = quantity current /\
    pricePerBud current <= pricePerBud raised /\ pricePerBud raised <= 5 /\
    (pricePerBud current < 5 -> pricePerBud current < pricePerBud raised).
Proof.
  intros F N Hlo Hhi Hr. unfold haggleTradeOffer. rewrite F, N.
  apply ltb_lt in Hr. rewrite Hr. cbn [fst trade with_trade offers with_offers].
  eexists. split; [apply (nth_error_set_at_same _ _ current); exact N|].
  cbn [offer_id quantity pricePerBud with_pricePerBud].
  destruct (raised_price_bounds (pricePerBud current) Hlo Hhi) as (A & B & C).
  auto.
Qed.

Lemma haggle_never_lowers_price_witness :
  let current := {| offer_id := "offer-1000-0"; quantity := 10; pricePerBud := 15 # 10 |} in
  1 # 4 <= pricePerBud current /\ pricePerBud current <= 5 /\ 1 # 4 < 4 # 10 /\
  exists raised,
    nth_error (offers (trade (fst (haggleTradeOffer (1 # 4) "offer-1000-0" demoState)))) 0
      = Some raised /\
    pricePerBud current <= pricePerBud raised.
Proof.
  intro current.
  assert (A : 1 # 4 <= pricePerBud current) by discriminate.
  assert (B : pricePerBud current <= 5) by discriminate.
  assert (C : 1 # 4 < 4 # 10) by reflexivity.
  destruct (haggle_never_lowers_price (1 # 4) "offer-1000-0" demoState 0 current
              eq_refl eq_refl A B C) as (raised & N & _ & _ & P & _).
  exact (conj A (conj B (conj C (ex_intro _ raised (conj N P))))).
Defined.

Lemma find_first_of_distinct (offerId : string) (os : list TradeOffer) (o : TradeOffer) :
  NoDup (map offer_id os) -> In o os -> offer_id o = offerId ->
  find (fun x => String.eqb (offer_id x) offerId) os = Some o.
Proof.
  intros Hnd Hin <-. induction os as [|x r IH]; simpl in *; [contradiction|].
  inversion Hnd as [|? ? Hx Hr]; subst.
  destruct Hin as [->|Hin]; [now rewrite String.eqb_refl|].
  destruct (String.eqb (offer_id x) (offer_id o)) eqn:E; [|now apply IH].
  apply String.eqb_eq in E. exfalso. apply Hx. rewrite E.
  now apply in_map.
Qed.


Lemma demoOffers_distinct : NoDup (map offer_id (offers (trade demoState))).
Proof.
  repeat constructor; cbn; intuition discriminate.
Defined.


(** X9.  An offer cannot be sold twice: once [acceptTradeOffer] has
    accepted an id, no offer with that id is left, and accepting or
    haggling over the id again is declined without any change. *)
Theorem sold_offer_is_gone (r : number) (offerId : string) (s : GameState) :
  snd (acceptTradeOffer offerId s) = true ->
  let s' := fst (acceptTradeOffer offerId s) in
  (forall o, In o (offers (trade s')) -> offer_id o <> offerId) /\
  acceptTradeOffer offerId s' = (s', false) /\
  haggleTradeOffer r offerId s' = (s', false).
Proof.
  intros Hacc s'.
  assert (Gone : forall o, In o (offers (trade s')) ->
                           String.eqb (offer_id o) offerId = false).
  { subst s'. unfold acceptTradeOffer in *.
    destruct (find _ (offers (trade s))) as [o|]; [|discriminate].
    destruct (ltb (buds s) (quantity o)); [discriminate|]. cbn.
    intros x Hx. apply filter_In in Hx. destruct Hx as [_ Hx].
    now apply negb_true_iff in Hx. }
  split; [|split].
  - intros o Ho. apply String.eqb_neq. now apply Gone.
  - unfold acceptTradeOffer.
    now rewrite (proj2 (find_none_iff _ _) Gone).
  - unfold haggleTradeOffer.
    now rewrite (proj2 (findIndex_none_iff _ _) Gone).
Qed.

Lemma sold_offer_is_gone_witness :
  let s' := fst (acceptTradeOffer "offer-1000-0" demoState) in
  snd (acceptTradeOffer "offer-1000-0" demoState) = true /\
  acceptTradeOffer "offer-1000-0" s' = (s', false).
Proof.
  intro s'.
  exact (conj eq_refl
           (proj1 (proj2 (sold_offer_is_gone 0 "offer-1000-0" demoState eq_refl)))).
Defined.

(** ** Offer ids *)

Lemma string_app_inv_head (p a b : string) : (p ++ a = p ++ b)%string -> a = b.
Proof.
  induction p as [|c p IH]; simpl; intro H; [exact H|].
  injection H as H. now apply IH.
Qed.

Lemma generated_id_neq (now : Z) (a b : string) :
  a <> b ->
  ("offer-" ++ show now ++ "-" ++ a)%string <> ("offer-" ++ show now ++ "-" ++ b)%string.
Proof.
  intros H E. apply (string_app_inv_head "offer-") in E.
  apply string_app_inv_head in E. apply (string_app_inv_head "-") in E.
  contradiction.
Qed.

Lemma generated_ids_distinct (rnd : nat -> number) (now : Z) (prev : GameState) :
  NoDup (map offer_id (offers (trade (generateTradeOffers rnd now prev)))).
Proof.
  change (map offer_id (offers (trade (generateTradeOffers rnd now prev))))
    with [ ("offer-" ++ show now ++ "-" ++ "0")%string;
           ("offer-" ++ show now ++ "-" ++ "1")%string;
           ("offer-" ++ show now ++ "-" ++ "2")%string ].
  constructor; [|constructor; [|constructor; [|constructor]]].
  - intros [H|[H|[]]]; revert H; apply generated_id_neq; discriminate.
  - intros [H|[]]; revert H; apply generated_id_neq; discriminate.
  - intros [].
Qed.

Lemma map_set_at_same_id (i : nat) (v current : TradeOffer) (os : list TradeOffer) :
  nth_error os i = Some current -> offer_id v = offer_id current ->
  map offer_id (set_at i v os) = map offer_id os.
Proof.
  revert i. induction os as [|x r IH]; intros [|i] N E; simpl in *;
    try discriminate.
  - injection N as ->. now rewrite E.
  - f_equal. now apply IH.
Qed.

Lemma NoDup_map_splice1 {A B} (f : A -> B) (i : nat) (xs : list A) :
  NoDup (map f xs) -> NoDup (map f (splice1 i xs)).
Proof.
  revert i. induction xs as [|x r IH]; intros [|i] H; simpl in *; auto;
    inversion H as [|? ? Hx Hr]; subst; auto.
  constructor; [|now apply IH].
  intro Hin. apply Hx. clear - Hin. revert i Hin.
  induction r as [|y r IH]; intros [|i] Hin; simpl in *; auto.
  destruct Hin as [->|Hin]; eauto.
Qed.

Lemma NoDup_map_filter {A B} (f : A -> B) (p : A -> bool) (xs : list A) :
  NoDup (map f xs) -> NoDup (map f (filter p xs)).
Proof.
  induction xs as [|x r IH]; simpl; intro H; [constructor|].
  inversion H as [|? ? Hx Hr]; subst.
  destruct (p x); simpl; [|now apply IH].
  constructor; [|now apply IH].
  intro Hin. apply Hx. apply in_map_iff in Hin. destruct Hin as (y & E & Hy).
  apply filter_In in Hy. rewrite <- E. apply in_map. exact (proj1 Hy).
Qed.

Lemma perform_ids_distinct (c : Call) (s : GameState) :
  NoDup (map offer_id (offers (trade s))) ->
  NoDup (map offer_id (offers (trade (perform c s)))).
Proof.
  intro H. destruct c as [o| | | | |]; simpl; try assumption.
  - destruct o; simpl; try assumption.
    + unfold spendNugs. destruct (geb _ _); assumption.
    + unfold spendBuds. destruct (geb _ _); assumption.
    + apply (generated_ids_distinct rnd now s).
    + unfold acceptTradeOffer. destruct (find _ _) as [o|]; [|assumption].
      destruct (ltb _ _); [assumption|]. cbn. now apply NoDup_map_filter.
    + unfold haggleTradeOffer.
      destruct (findIndex _ (offers (trade s))) as [idx|]; [|assumption].
      destruct (nth_error (offers (trade s)) idx) as [current|] eqn:N; [|assumption].
      destruct (ltb r (4 # 10)); cbn.
      * now rewrite (map_set_at_same_id idx _ current).
      * now apply NoDup_map_splice1.
    + unfold claimQuestReward. destruct (findIndex _ _) as [idx|]; [|assumption].
      destruct (nth_error (quests s) idx) as [quest|]; [|assumption].
      destruct (claimed quest || ltb (progress quest) (goal quest)); assumption.
    + unfold triggerRandomEvent. destruct (negb _); [assumption|].
      destruct (nth_error _ _); assumption.
    + unfold tickEvent. destruct (event s); [|assumption].
      destruct (ltb _ _); assumption.
  - unfold updatePlant. destruct (nth_error (slots s) slotIndex) as [[p|]|];
      assumption.
Qed.

(** X10.  Offer ids are never ambiguous: every batch that
    [generateTradeOffers] makes has three pairwise distinct ids
    ([offer-<now>-0], [-1], [-2]), and in every state reached from the
    initial state, by any calls with any arguments, no two offers share an
    id. *)
Theorem reachable_offer_ids_distinct (cs : list Call) :
  NoDup (map offer_id (offers (trade (performs cs INITIAL_STATE)))).
Proof.
  assert (G : forall s, NoDup (map offer_id (offers (trade s))) ->
                        NoDup (map offer_id (offers (trade (performs cs s))))).
  { induction cs as [|c r IH]; intros s H; simpl; [exact H|].
    apply IH. now apply perform_ids_distinct. }
  apply G. constructor.
Qed.

(** ** The total shown by the panel *)

Lemma totalValue_from (os : list TradeOffer) (a : number) :
  fold_left (fun sum o => sum + offerRevenue o) os a == a + totalValue os.
Proof.
  unfold totalValue. revert a. induction os as [|o r IH]; intro a; simpl.
  - lra.
  - rewrite (IH (a + offerRevenue o)), (IH (0 + offerRevenue o)). lra.
Qed.

Lemma totalValue_cons (o : TradeOffer) (os : list TradeOffer) :
  totalValue (o :: os) == offerRevenue o + totalValue os.
Proof.
  unfold totalValue at 1. simpl. rewrite totalValue_from. lra.
Qed.

Lemma totalValue_filter_absent (offerId : string) (os : list TradeOffer) :
  ~ In offerId (map offer_id os) ->
  filter (fun x => negb (String.eqb (offer_id x) offerId)) os = os.
Proof.
  induction os as [|x r IH]; simpl; intro H; [reflexivity|].
  destruct (String.eqb (offer_id x) offerId) eqn:E.
  - apply String.eqb_eq in E. exfalso. apply H. now left.
  - simpl. f_equal. apply IH. intro Hin. apply H. now right.
Qed.

Lemma totalValue_without (o : TradeOffer) (os : list TradeOffer) :
  NoDup (map offer_id os) -> In o os ->
  totalValue (filter (fun x => negb (String.eqb (offer_id x) (offer_id o))) os)
  + offerRevenue o == totalValue os.
Proof.
  induction os as [|x r IH]; simpl; intros Hnd Hin; [contradiction|].
  inversion Hnd as [|? ? Hx Hr]; subst.
  destruct Hin as [->|Hin].
  - rewrite String.eqb_refl. simpl.
    rewrite (totalValue_filter_absent (offer_id o) r Hx), totalValue_cons. lra.
  - destruct (String.eqb (offer_id x) (offer_id o)) eqn:E.
    + apply String.eqb_eq in E. exfalso. apply Hx. rewrite E. now apply in_map.
    + simpl. rewrite !totalValue_cons, <- (IH Hr Hin). lra.
Qed.

(** X11.  The "total value of the offers" that the panel shows is what the
    offers are worth: with distinct ids, selling an offer moves exactly its
    revenue from the total into [nugs], so [nugs + totalValue(offers)] is
    the same before and after the sale. *)
Theorem sale_moves_value (s : GameState) (o : TradeOffer) :
  NoDup (map offer_id (offers (trade s))) -> In o (offers (trade s)) ->
  quantity o <= buds s ->
  let s' := fst (acceptTradeOffer (offer_id o) s) in
  nugs s' + totalValue (offers (trade s')) == nugs s + totalValue (offers (trade s)) /\
  totalValue (offers (trade s')) == totalValue (offers (trade s)) - offerRevenue o.
Proof.
  intros Hnd Hin Hb s'. subst s'. unfold acceptTradeOffer.
  rewrite (find_first_of_distinct (offer_id o) _ o Hnd Hin eq_refl).
  assert (L : ltb (buds s) (quantity o) = false) by now apply ltb_ge.
  rewrite L. cbn [fst nugs trade offers with_offers].
  pose proof (totalValue_without o _ Hnd Hin) as T.
  fold (offerRevenue o). split; lra.
Qed.

Lemma sale_moves_value_witness :
  let o := {| offer_id := "offer-1000-0"; quantity := 10; pricePerBud := 15 # 10 |} in
  let s' := fst (acceptTradeOffer "offer-1000-0" demoState) in
  quantity o <= buds demoState /\
  nugs s' + totalValue (offers (trade s')) ==
  nugs demoState + totalValue (offers (trade demoState)).
Proof.
  intros o s'.
  assert (Hin : In o (offers (trade demoState))) by (left; reflexivity).
  assert (Hb : quantity o <= buds demoState) by discriminate.
  exact (conj Hb (proj1 (sale_moves_value demoState o demoOffers_distinct Hin Hb))).
Defined.

(** ** The refresh cooldown, end to end *)

Lemma inject_Z_lt_intro (a b : Z) : (a < b)%Z -> inject_Z a < inject_Z b.
Proof. rewrite Zlt_Qlt. exact (fun H => H). Qed.

Lemma canRefresh_true_iff (nextRefreshAt : number) (now : Z) :
  canRefresh nextRefreshAt now = true <-> nextRefreshAt <= inject_Z now.
Proof.
  destruct (canRefresh nextRefreshAt now) eqn:E.
  - split; [intros _|reflexivity]. apply Qnot_lt_le. intro L.
    apply canRefresh_false_iff in L. congruence.
  - split; [discriminate|]. intro L. apply canRefresh_false_iff in E.
    exfalso. exact (Qlt_not_le _ _ E L).
Qed.

Lemma Math_ceil_bounds (x : number) (lo hi : Z) :
  inject_Z lo < x -> x <= inject_Z hi ->
  exists k : Z, Math_ceil x = inject_Z k /\ (lo < k <= hi)%Z.
Proof.
  intros Hlo Hhi. exists (Qceiling x). split; [reflexivity|].
  pose proof (Qle_ceiling x) as C1. pose proof (Qceiling_lt x) as C2.
  assert (A : inject_Z lo < inject_Z (Qceiling x)) by (eapply Qlt_le_trans; eassumption).
  assert (B : inject_Z (Qceiling x - 1) < inject_Z hi) by (eapply Qlt_le_trans; eassumption).
  apply inject_Z_lt_inv in A, B. lia.
Qed.

(** X12.  After a refresh at time [now] the panel keeps the refresh button
    disabled for exactly 30 seconds: a click while the panel's clock is
    before [now + 30000] changes nothing, and from [now + 30000] on a click
    refreshes again.  During the wait the label counts whole seconds, from
    30 down to 1. *)
Theorem refresh_blocked_for_30s (rnd rnd' : nat -> number) (now now' panelNow : Z)
    (s : GameState) :
  let s1 := generateTradeOffers rnd now s in
  ((panelNow < now + 30000)%Z ->
     canRefresh (nextRefreshAt (trade s1)) panelNow = false /\
     clickRefresh panelNow rnd' now' s1 = s1) /\
  ((now + 30000 <= panelNow)%Z ->
     canRefresh (nextRefreshAt (trade s1)) panelNow = true /\
     refreshSeconds (nextRefreshAt (trade s1)) panelNow == 0 /\
     clickRefresh panelNow rnd' now' s1 = generateTradeOffers rnd' now' s1) /\
  ((now <= panelNow < now + 30000)%Z ->
     exists k : Z, refreshSeconds (nextRefreshAt (trade s1)) panelNow = inject_Z k /\
                   (1 <= k <= 30)%Z).
Proof.
  intro s1.
  assert (E : nextRefreshAt (trade s1) = inject_Z now + 30000) by reflexivity.
  assert (E3 : inject_Z 30000 == 30000) by reflexivity.
  split; [|split].
  - intro H.
    assert (C : canRefresh (nextRefreshAt (trade s1)) panelNow = false).
    { apply canRefresh_false_iff. rewrite E.
      apply inject_Z_lt_intro in H. rewrite inject_Z_plus, E3 in H. exact H. }
    split; [exact C|]. unfold clickRefresh. now rewrite C.
  - intro H.
    assert (L : nextRefreshAt (trade s1) <= inject_Z panelNow).
    { rewrite E. apply inject_Z_le_intro in H.
      rewrite inject_Z_plus, E3 in H. exact H. }
    assert (C : canRefresh (nextRefreshAt (trade s1)) panelNow = true)
      by now apply canRefresh_true_iff.
    split; [exact C|]. split; [|unfold clickRefresh; now rewrite C].
    unfold refreshSeconds, refreshCooldownMs.
    destruct (Math_max_cases 0 (nextRefreshAt (trade s1) - inject_Z panelNow))
      as [[H0 ->]|[H0 ->]].
    + assert (Z0 : nextRefreshAt (trade s1) - inject_Z panelNow == 0) by lra.
      unfold Math_ceil.
      assert (C0 : Qceiling ((nextRefreshAt (trade s1) - inject_Z panelNow) / 1000) = 0%Z)
        by (rewrite Z0; reflexivity).
      rewrite C0. reflexivity.
    + reflexivity.
  - intros [H1 H2]. unfold refreshSeconds, refreshCooldownMs. rewrite E.
    apply inject_Z_le_intro in H1.
    apply inject_Z_lt_intro in H2. rewrite inject_Z_plus, E3 in H2.
    destruct (Math_max_cases 0 (inject_Z now + 30000 - inject_Z panelNow))
      as [[H0 ->]|[H0 _]]; [|lra].
    destruct (Math_ceil_bounds ((inject_Z now + 30000 - inject_Z panelNow) / 1000) 0 30)
      as (k & Ek & Hk).
    + apply Qlt_shift_div_l; [reflexivity|].
      assert (Ez : inject_Z 0 * 1000 == 0) by reflexivity. rewrite Ez. lra.
    + apply Qle_shift_div_r; [reflexivity|].
      assert (Ez : inject_Z 30 * 1000 == 30000) by reflexivity. rewrite Ez. lra.
    + exists k. split; [exact Ek | lia].
Qed.

Lemma refresh_blocked_for_30s_witness :
  let s1 := generateTradeOffers (fun _ => 1 # 2) 1000 INITIAL_STATE in
  (1000 <= 16500 < 1000 + 30000)%Z /\
  clickRefresh 16500 (fun _ => 1 # 4) 16500 s1 = s1 /\
  exists k : Z, refreshSeconds (nextRefreshAt (trade s1)) 16500 = inject_Z k /\
                (1 <= k <= 30)%Z.
Proof.
  intro s1.
  assert (H : (1000 <= 16500 < 1000 + 30000)%Z) by lia.
  destruct (refresh_blocked_for_30s (fun _ => 1 # 2) (fun _ => 1 # 4) 1000 16500 16500
              INITIAL_STATE) as (A & _ & C).
  exact (conj H (conj (proj2 (A (proj2 H))) (C H))).
Defined.

(** ** Random events *)

Lemma preset_index (r : number) :
  0 <= r -> r < 1 ->
  exists pick, nth_error presets (Z.to_nat (Qfloor (r * 4))) = Some pick /\
               inject_Z (Z.of_nat (Z.to_nat (Qfloor (r * 4)))) <= r * 4 /\
               r * 4 < inject_Z (Z.of_nat (Z.to_nat (Qfloor (r * 4)))) + 1.
Proof.
  intros R0 R1.
  pose proof (Qfloor_le (r * 4)) as F1. pose proof (Qlt_floor (r * 4)) as F2.
  assert (A : inject_Z 0 < inject_Z (Qfloor (r * 4) + 1)).
  { eapply Qle_lt_trans; [|exact F2]. change (inject_Z 0) with 0. lra. }
  assert (B : inject_Z (Qfloor (r * 4)) < inject_Z 4).
  { eapply Qle_lt_trans; [exact F1|]. assert (E : inject_Z 4 == 4) by reflexivity.
    rewrite E. lra. }
  apply inject_Z_lt_inv in A, B.
  rewrite Z2Nat.id by lia. rewrite inject_Z_plus in F2.
  assert (E1 : inject_Z 1 == 1) by reflexivity. rewrite E1 in F2.
  destruct (nth_error presets (Z.to_nat (Qfloor (r * 4)))) as [pick|] eqn:N.
  - exists pick. auto.
  - apply nth_error_None in N.
    assert (Hl : List.length presets = 4%nat) by reflexivity.
    rewrite Hl in N. lia.
Qed.

(** X13.  With random events switched off, [triggerRandomEvent] does
    nothing.  Switched on, it installs one of the four presets, each for a
    quarter of the draws, ending at [now + 60000] and replacing whatever
    event was running; [tickEvent] leaves the event alone before that time
    and clears it from that time on, after which further ticks change
    nothing. *)
Theorem event_lasts_60s (r : number) (now : Z) (s : GameState) :
  (randomEventsEnabled (settings s) = false -> triggerRandomEvent r now s = s) /\
  (randomEventsEnabled (settings s) = true -> 0 <= r -> r < 1 ->
     let s1 := triggerRandomEvent r now s in
     (exists i pick,
        nth_error presets i = Some pick /\
        inject_Z (Z.of_nat i) <= r * 4 /\ r * 4 < inject_Z (Z.of_nat i) + 1 /\
        s1 = with_event (Some (with_endsAt (inject_Z now + 60000) pick)) s) /\
     (forall t, (t < now + 60000)%Z -> tickEvent t s1 = s1) /\
     (forall t, (now + 60000 <= t)%Z ->
        tickEvent t s1 = with_event None s /\
        tickEvent t (tickEvent t s1) = tickEvent t s1)).
Proof.
  split.
  - intro D. unfold triggerRandomEvent. now rewrite D.
  - intros En R0 R1 s1.
    destruct (preset_index r R0 R1) as (pick & N & I1 & I2).
    assert (E : s1 = with_event (Some (with_endsAt (inject_Z now + 60000) pick)) s).
    { subst s1. unfold triggerRandomEvent. now rewrite En, N. }
    assert (E6 : inject_Z 60000 == 60000) by reflexivity.
    assert (E1 : inject_Z 1 == 1) by reflexivity.
    split; [|split].
    + exists (Z.to_nat (Qfloor (r * 4))), pick. auto.
    + intros t Ht. rewrite E. unfold tickEvent. cbn [event with_event endsAt with_endsAt].
      assert (L : ltb (inject_Z t) (inject_Z now + 60000) = true).
      { apply ltb_lt. apply inject_Z_lt_intro in Ht.
        rewrite inject_Z_plus, E6 in Ht. exact Ht. }
      now rewrite L.
    + intros t Ht. rewrite E. unfold tickEvent. cbn [event with_event endsAt with_endsAt].
      assert (L : ltb (inject_Z t) (inject_Z now + 60000) = false).
      { apply ltb_ge. apply inject_Z_le_intro in Ht.
        rewrite inject_Z_plus, E6 in Ht. exact Ht. }
      rewrite L. split; reflexivity.
Qed.

Lemma event_lasts_60s_witness :
  let s1 := triggerRandomEvent (3 # 10) 2000 INITIAL_STATE in
  randomEventsEnabled (settings INITIAL_STATE) = true /\
  0 <= 3 # 10 /\ 3 # 10 < 1 /\
  tickEvent 61999 s1 = s1 /\
  tickEvent 62000 s1 = with_event None INITIAL_STATE.
Proof.
  intro s1.
  assert (R0 : 0 <= 3 # 10) by discriminate.
  assert (R1 : 3 # 10 < 1) by reflexivity.
  destruct (proj2 (event_lasts_60s (3 # 10) 2000 INITIAL_STATE) eq_refl R0 R1)
    as (_ & Hkeep & Hclear).
  exact (conj eq_refl (conj R0 (conj R1
           (conj (Hkeep 61999%Z ltac:(lia)) (proj1 (Hclear 62000%Z ltac:(lia))))))).
Defined.

(** ** Growth, tick by tick *)

Section PlantSlotTiming.

Variable PHASES : list Phase.
Variable Strain : Type.
Variable getStrain : string -> option Strain.
Variable getTimeMultiplier : string -> number.

Local Abbreviation step1 := (advance PHASES Strain getStrain getTimeMultiplier).
Local Abbreviation steps := (advances PHASES Strain getStrain getTimeMultiplier).
Local Abbreviation duration_of := (phaseDuration getTimeMultiplier).





(** X15.  Each tick raises [phaseIndex] by one at most: after [n] ticks,
    whatever the catalog and the counter, the plant is at most [n] phases
    further. *)
Theorem ticks_advance_one_phase_at_most (n : nat) (plant : Plant) (l : number) :
  (phaseIndex (fst (steps n (plant, l))) <= phaseIndex plant + n)%nat.
Proof.
  revert plant l. induction n as [|n IH]; intros plant l; [cbn; lia|].
  change (steps (S n) (plant, l)) with (steps n (step1 (plant, l))).
  assert (A : (phaseIndex (fst (step1 (plant, l))) <= S (phaseIndex plant))%nat).
  { unfold advance, tick.
    destruct (getStrain (strainId plant)); [|cbn; lia].
    destruct (nth_error PHASES (phaseIndex plant)) as [ph|]; [|cbn; lia].
    destruct (geb (l + 1) (duration_of ph plant)); [|cbn; lia].
    destruct (S (phaseIndex plant) <? List.length PHASES)%nat; cbn; lia. }
  destruct (step1 (plant, l)) as [plant1 l1]. cbn [fst] in A.
  specialize (IH plant1 l1). lia.
Qed.

(** X16.  A plant that is ready for harvest stays ready and is no longer
    written: when [isHarvestReady] holds (last phase, counter at or beyond
    a positive phase duration), any number of further ticks leaves the
    stored plant exactly as it is and [isHarvestReady] true. *)
Theorem harvest_ready_is_terminal (n : nat) (plant : Plant) (l : number) (ph : Phase) :
  nth_error PHASES (phaseIndex plant) = Some ph ->
  0 < duration_of ph plant ->
  isHarvestReady PHASES getTimeMultiplier plant l = true ->
  fst (steps n (plant, l)) = plant /\
  isHarvestReady PHASES getTimeMultiplier plant (snd (steps n (plant, l))) = true.
Proof.
  intros Hp Hd. revert l. induction n as [|n IH]; intros l Hr; [cbn; auto|].
  change (steps (S n) (plant, l)) with (steps n (step1 (plant, l))).
  assert (R := Hr). unfold isHarvestReady in R. rewrite Hp in R.
  apply andb_prop in R. destruct R as [Rlast Rprog].
  apply geb_le in Rprog. unfold phaseProgress in Rprog.
  assert (Ld : duration_of ph plant <= l).
  { assert (X : 1 <= l / duration_of ph plant) by lra.
    assert (E : duration_of ph plant * (l / duration_of ph plant) == l).
    { apply Qmult_div_r. intro Z. rewrite Z in Hd. exact (Qlt_irrefl 0 Hd). }
    assert (Y : duration_of ph plant * 1 <= duration_of ph plant * (l / duration_of ph plant))
      by (apply Qmult_le_l; [exact Hd | exact X]).
    rewrite E, Qmult_1_r in Y. exact Y. }
  assert (Ready : forall l', l <= l' ->
                    isHarvestReady PHASES getTimeMultiplier plant l' = true).
  { intros l' Hl. unfold isHarvestReady. rewrite Hp, Rlast. cbn [andb].
    unfold geb, phaseProgress. apply Qle_bool_iff.
    assert (X : 1 <= l' / duration_of ph plant).
    { apply Qle_shift_div_l; [exact Hd|]. rewrite Qmult_1_l. lra. }
    lra. }
  apply Nat.eqb_eq in Rlast.
  assert (A : step1 (plant, l) = (plant, l) \/ step1 (plant, l) = (plant, l + 1)).
  { unfold advance, tick. rewrite Hp.
    destruct (getStrain (strainId plant)); [|now left].
    assert (G : geb (l + 1) (duration_of ph plant) = true).
    { unfold geb. apply Qle_bool_iff. lra. }
    rewrite G.
    assert (N : (S (phaseIndex plant) <? List.length PHASES)%nat = false).
    { apply Nat.ltb_ge. lia. }
    rewrite N. now right. }
  destruct A as [-> | ->].
  - now apply IH.
  - apply IH. apply Ready. lra.
Qed.

End PlantSlotTiming.


Lemma harvest_ready_is_terminal_witness :
  let ph := {| phase_name := "Harvest"; duration := 60;
               waterRecommended := true; fertilizerRecommended := false |} in
  0 < phaseDuration demoTimeMultiplier ph ripePlant /\
  isHarvestReady demoPHASES demoTimeMultiplier ripePlant 54 = true /\
  fst (advances demoPHASES unit demoGetStrain demoTimeMultiplier 100 (ripePlant, 54))
  = ripePlant.
Proof.
  intro ph.
  assert (D : 0 < phaseDuration demoTimeMultiplier ph ripePlant) by reflexivity.
  assert (R : isHarvestReady demoPHASES demoTimeMultiplier ripePlant 54 = true)
    by reflexivity.
  exact (conj D (conj R
           (proj1 (harvest_ready_is_terminal demoPHASES unit demoGetStrain
                     demoTimeMultiplier 100 ripePlant 54 ph eq_refl D R)))).
Defined.

(** X17.  A plant whose strain the catalog does not know never grows: no
    number of ticks changes the stored plant or even the counter. *)
Theorem unknown_strain_never_grows (PHASES : list Phase) (Strain : Type)
    (getStrain : string -> option Strain) (getTimeMultiplier : string -> number)
    (n : nat) (plant : Plant) (l : number) :
  getStrain (strainId plant) = None ->
  advances PHASES Strain getStrain getTimeMultiplier n (plant, l) = (plant, l).
Proof.
  intro H. induction n as [|n IH]; [reflexivity|].
  change (advances PHASES Strain getStrain getTimeMultiplier (S n) (plant, l))
    with (advances PHASES Strain getStrain getTimeMultiplier n
            (advance PHASES Strain getStrain getTimeMultiplier (plant, l))).
  assert (A : advance PHASES Strain getStrain getTimeMultiplier (plant, l) = (plant, l)).
  { unfold advance, tick. now rewrite H. }
  now rewrite A.
Qed.

Lemma unknown_strain_never_grows_witness :
  noStrain (strainId seedling) = None /\
  advances demoPHASES unit noStrain demoTimeMultiplier 500 (seedling, 0) = (seedling, 0).
Proof.
  exact (conj eq_refl
           (unknown_strain_never_grows demoPHASES unit noStrain demoTimeMultiplier
              500 seedling 0 eq_refl)).
Defined.

Lemma nth_error_set_at_other {A} (i j : nat) (v : A) (xs : list A) :
  i <> j -> nth_error (set_at i v xs) j = nth_error xs j.
Proof.
  revert i j. induction xs as [|x r IH]; intros [|i] [|j] H; simpl; auto;
    contradiction.
Qed.

(** X18.  The tick of the component mounted on a slot does to that slot what
    the tick does to its plant, and touches nothing else: the other slots,
    the number of slots, both balances, upgrades, trade, event, quests,
    stats and settings are as before. *)
Theorem slotTick_acts_on_its_slot (PHASES : list Phase) (Strain : Type)
    (getStrain : string -> option Strain) (getTimeMultiplier : string -> number)
    (i : nat) (s : GameState) (plant : Plant) (l : number) :
  nth_error (slots s) i = Some (Some plant) ->
  let after := slotTick PHASES Strain getStrain getTimeMultiplier i s l in
  let grown := advance PHASES Strain getStrain getTimeMultiplier (plant, l) in
  nth_error (slots (fst after)) i = Some (Some (fst grown)) /\
  snd after = snd grown /\
  (forall j, j <> i -> nth_error (slots (fst after)) j = nth_error (slots s) j) /\
  List.length (slots (fst after)) = List.length (slots s) /\
  nugs (fst after) = nugs s /\ buds (fst after) = buds s /\
  upgrades (fst after) = upgrades s /\ trade (fst after) = trade s /\
  event (fst after) = event s /\ quests (fst after) = quests s /\
  stats (fst after) = stats s /\ settings (fst after) = settings s.
Proof.
  intros N after grown. subst after grown. unfold slotTick, advance. rewrite N.
  destruct (tick PHASES Strain getStrain getTimeMultiplier plant l)
    as [[[elapsed idx]|] l'].
  - unfold updatePlant. rewrite N. cbn.
    split; [apply (nth_error_set_at_same _ _ (Some plant)); exact N|].
    split; [reflexivity|].
    split; [intros j Hj; apply nth_error_set_at_other; auto|].
    split; [apply length_set_at|]. repeat split.
  - cbn. split; [exact N|]. repeat split.
Qed.

Lemma slotTick_acts_on_its_slot_witness :
  nth_error (slots foggyGarden) 0 = Some (Some demoPlant) /\
  nth_error (slots (fst (slotTick demoPHASES unit demoGetStrain demoTimeMultiplier
                           0 foggyGarden 58))) 0
  = Some (Some (fst (advance demoPHASES unit demoGetStrain demoTimeMultiplier
                       (demoPlant, 58)))).
Proof.
  exact (conj eq_refl
           (proj1 (slotTick_acts_on_its_slot demoPHASES unit demoGetStrain
                     demoTimeMultiplier 0 foggyGarden demoPlant 58 eq_refl))).
Defined.

(** ** Slots *)

Lemma nth_error_assign_at_same {A} (hole : A) (i : nat) (v : A) (xs : list A) :
  nth_error (assign_at hole i v xs) i = Some v.
Proof.
  revert xs. induction i as [|i IH]; intros [|x r]; simpl; auto.
Qed.

Lemma nth_error_assign_at_other {A} (hole : A) (i j : nat) (v : A) (xs : list A) :
  j <> i -> (j < List.length xs)%nat ->
  nth_error (assign_at hole i v xs) j = nth_error xs j.
Proof.
  revert j xs. induction i as [|i IH]; intros [|j] [|x r] H L; simpl in *;
    try lia; auto.
  apply IH; lia.
Qed.

Lemma length_assign_at {A} (hole : A) (i : nat) (v : A) (xs : list A) :
  List.length (assign_at hole i v xs) = Nat.max (List.length xs) (S i).
Proof.
  revert xs. induction i as [|i IH]; intros [|x r];
    cbn [assign_at List.length]; try rewrite IH; cbn [List.length]; lia.
Qed.

Lemma assign_at_in_range {A} (hole : A) (i : nat) (v : A) (xs : list A) :
  (i < List.length xs)%nat -> assign_at hole i v xs = set_at i v xs.
Proof.
  revert xs. induction i as [|i IH]; intros [|x r] H; simpl in *; try lia; auto.
  f_equal. apply IH. lia.
Qed.

Lemma set_at_set_at {A} (i : nat) (v w : A) (xs : list A) :
  set_at i w (set_at i v xs) = set_at i w xs.
Proof.
  revert i. induction xs as [|x r IH]; intros [|i]; simpl; auto.
  f_equal. apply IH.
Qed.

Lemma set_at_same {A} (i : nat) (v : A) (xs : list A) :
  nth_error xs i = Some v -> set_at i v xs = xs.
Proof.
  revert i. induction xs as [|x r IH]; intros [|i] H; simpl in *;
    try discriminate.
  - now injection H as ->.
  - f_equal. now apply IH.
Qed.

(** X19.  [plantSeed] writes the slot without looking at it.  The slot then
    holds a new plant of the given strain and soil in phase 0 with no time
    elapsed, whether the slot was empty or occupied (the old plant is
    dropped); the slots beside it and every other part of the state are
    kept; and the garden has as many slots as before, unless the index lies
    past the end, in which case it reaches up to that index. *)
Theorem plantSeed_overwrites_slot (i : nat) (strain : string) (soil : SoilType)
    (nowId nowPlanted : Z) (s : GameState) :
  let s' := plantSeed i strain soil nowId nowPlanted s in
  (exists plant,
     nth_error (slots s') i = Some (Some plant) /\
     strainId plant = strain /\ soilType (modifiers plant) = soil /\
     phaseIndex plant = 0%nat /\ elapsedInPhase plant = 0 /\
     qualityMultiplier (modifiers plant) = 1 /\
     plantedAt plant = inject_Z nowPlanted) /\
  (forall j, j <> i -> (j < List.length (slots s))%nat ->
     nth_error (slots s') j = nth_error (slots s) j) /\
  List.length (slots s') = Nat.max (List.length (slots s)) (S i) /\
  nugs s' = nugs s /\ buds s' = buds s /\ upgrades s' = upgrades s /\
  trade s' = trade s /\ event s' = event s /\ quests s' = quests s /\
  stats s' = stats s /\ settings s' = settings s.
Proof.
  intro s'. subst s'. unfold plantSeed. cbn [slots with_slots].
  split; [|split; [|split]].
  - eexists. split; [apply nth_error_assign_at_same|]. repeat split.
  - intros j Hj Hl. now apply nth_error_assign_at_other.
  - apply length_assign_at.
  - repeat split.
Qed.

Lemma plantSeed_overwrites_slot_witness :
  let s' := plantSeed 0 "white-widow" light_mix 5000 5001 foggyGarden in
  (1 <> 0)%nat /\ (1 < List.length (slots foggyGarden))%nat /\
  nth_error (slots s') 1 = nth_error (slots foggyGarden) 1 /\
  exists plant, nth_error (slots s') 0 = Some (Some plant) /\
                strainId plant = "white-widow"%string.
Proof.
  intro s'.
  assert (A : (1 <> 0)%nat) by discriminate.
  assert (B : (1 < List.length (slots foggyGarden))%nat) by (cbn; lia).
  destruct (plantSeed_overwrites_slot 0 "white-widow" light_mix 5000 5001 foggyGarden)
    as ((plant & N & S & _) & Keep & _).
  exact (conj A (conj B (conj (Keep 1%nat A B) (ex_intro _ plant (conj N S))))).
Defined.

(** X20.  Clearing undoes planting: inside the garden, planting into an
    empty slot and then removing the plant gives back the slots as they
    were, and removing a plant twice is the same as removing it once. *)
Theorem removePlant_undoes_plantSeed (i : nat) (strain : string) (soil : SoilType)
    (nowId nowPlanted : Z) (s : GameState) :
  (nth_error (slots s) i = Some None ->
     slots (removePlant i (plantSeed i strain soil nowId nowPlanted s)) = slots s) /\
  ((i < List.length (slots s))%nat ->
     slots (removePlant i (removePlant i s)) = slots (removePlant i s)).
Proof.
  unfold removePlant, plantSeed. cbn [slots with_slots]. split.
  - intro N.
    assert (L : (i < List.length (slots s))%nat) by (apply nth_error_Some; congruence).
    rewrite (assign_at_in_range None i _ (slots s) L).
    rewrite assign_at_in_range by (rewrite length_set_at; exact L).
    rewrite set_at_set_at. now apply set_at_same.
  - intro L0.
    assert (L : (i < List.length (assign_at None i None (slots s)))%nat)
      by (rewrite length_assign_at; lia).
    rewrite (assign_at_in_range None i None _ L).
    apply set_at_same. apply nth_error_assign_at_same.
Qed.

Lemma removePlant_undoes_plantSeed_witness :
  nth_error (slots INITIAL_STATE) 1 = Some None /\
  slots (removePlant 1 (plantSeed 1 "og-kush" all_mix 1000 1001 INITIAL_STATE))
  = slots INITIAL_STATE.
Proof.
  exact (conj eq_refl
           (proj1 (removePlant_undoes_plantSeed 1 "og-kush" all_mix 1000 1001 INITIAL_STATE)
              eq_refl)).
Defined.



(** X22.  [updatePlant] only ever changes a plant that is there: on an
    empty slot or an index outside the garden it returns the state it was
    given, and on an occupied slot it replaces that plant by the plant with
    the updates merged in and keeps every other slot. *)
Theorem updatePlant_needs_a_plant (i : nat) (updates : PartialPlant) (s : GameState) :
  ((nth_error (slots s) i = None \/ nth_error (slots s) i = Some None) ->
     updatePlant i updates s = s) /\
  (forall plant, nth_error (slots s) i = Some (Some plant) ->
     nth_error (slots (updatePlant i updates s)) i = Some (Some (mergePlant plant updates)) /\
     (forall j, j <> i ->
        nth_error (slots (updatePlant i updates s)) j = nth_error (slots s) j) /\
     List.length (slots (updatePlant i updates s)) = List.length (slots s)).
Proof.
  unfold updatePlant. split.
  - intros [N|N]; rewrite N; destruct s; reflexivity.
  - intros plant N. rewrite N. cbn [slots with_slots].
    split; [apply (nth_error_set_at_same _ _ (Some plant)); exact N|].
    split; [intros j Hj; apply nth_error_set_at_other; auto | apply length_set_at].
Qed.

Lemma updatePlant_needs_a_plant_witness :
  nth_error (slots INITIAL_STATE) 0 = Some None /\
  nth_error (slots INITIAL_STATE) 7 = None /\
  updatePlant 0 (onUpdateArgs 5 2) INITIAL_STATE = INITIAL_STATE /\
  updatePlant 7 (onUpdateArgs 5 2) INITIAL_STATE = INITIAL_STATE.
Proof.
  pose proof (proj1 (updatePlant_needs_a_plant 0 (onUpdateArgs 5 2) INITIAL_STATE)) as A.
  pose proof (proj1 (updatePlant_needs_a_plant 7 (onUpdateArgs 5 2) INITIAL_STATE)) as B.
  exact (conj eq_refl (conj eq_refl (conj (A (or_intror eq_refl)) (B (or_introl eq_refl))))).
Defined.

(** ** Upgrade levels *)








(** ** Harvest statistics *)







(** ** What a loaded state always has *)

Lemma has_of_get (k : string) (o : Obj.t) (v : jsval) :
  Obj.get k o = Some v -> Obj.has k o = true.
Proof. unfold Obj.has. now intros ->. Qed.

Lemma has_spread_default (k : string) (o src : Obj.t) :
  Obj.has k o = true -> Obj.has k (Obj.spread o src) = true.
Proof.
  unfold Obj.has. rewrite Obj_get_spread.
  destruct (Obj.get k src); [reflexivity|]. exact (fun H => H).
Qed.

(** X25.  Whatever value the save parses to (an old save, a save of another
    shape, [null], a number, a string, an array), the loaded state has
    every top-level key of the initial state, its [stats] is an object with
    all six counters and its [trade] an object with [offers] and
    [nextRefreshAt]. *)
Theorem loaded_state_is_complete (parsed : jsval) :
  let loaded := loadState (Parsed parsed) in
  Forall (fun k => Obj.has k loaded = true) stateKeys /\
  (exists st, Obj.get "stats" loaded = Some (JObj st) /\
              Forall (fun f => Obj.has f st = true) statsKeys) /\
  (exists tr, Obj.get "trade" loaded = Some (JObj tr) /\
              Forall (fun f => Obj.has f tr = true) tradeKeys).
Proof.
  intro loaded. subst loaded. unfold loadState.
  set (merged := Obj.spread (jsState INITIAL_STATE) (ownProps parsed)).
  assert (M : forall k, Obj.has k (jsState INITIAL_STATE) = true ->
                        Obj.has k merged = true)
    by (intros k; apply has_spread_default).
  assert (Top : forall k v1 v2 v3, Obj.has k merged = true ->
            Obj.has k (Obj.set "quests" v1 (Obj.set "trade" v2 (Obj.set "stats" v3 merged)))
            = true).
  { intros k v1 v2 v3 H. unfold Obj.has in *.
    destruct (String.eqb "quests" k) eqn:E1.
    { apply String.eqb_eq in E1. subst k. now rewrite Obj_get_set_same. }
    apply String.eqb_neq in E1. rewrite (Obj_get_set_other _ _ _ _ E1).
    destruct (String.eqb "trade" k) eqn:E2.
    { apply String.eqb_eq in E2. subst k. now rewrite Obj_get_set_same. }
    apply String.eqb_neq in E2. rewrite (Obj_get_set_other _ _ _ _ E2).
    destruct (String.eqb "stats" k) eqn:E3.
    { apply String.eqb_eq in E3. subst k. now rewrite Obj_get_set_same. }
    apply String.eqb_neq in E3. now rewrite (Obj_get_set_other _ _ _ _ E3). }
  split; [|split].
  - unfold stateKeys. repeat constructor; apply Top, M; reflexivity.
  - eexists. split.
    + rewrite !Obj_get_set_other by discriminate. apply Obj_get_set_same.
    + unfold statsKeys. repeat constructor; apply has_spread_default; reflexivity.
  - eexists. split.
    + rewrite Obj_get_set_other by discriminate. apply Obj_get_set_same.
    + unfold tradeKeys. repeat constructor; apply has_spread_default; reflexivity.
Qed.

(** ** The water gauge *)

Lemma Qeq_bool_false_neq (a b : Q) : Qeq_bool a b = false -> ~ a == b.
Proof. intros H E. apply Qeq_bool_iff in E. congruence. Qed.

(** X26.  The water gauge of a slot is always a whole percentage between 0
    and 100, whatever cooldown values it is given (absent, zero, negative,
    or a remaining time above the total), and it is 0, with 0 seconds
    shown, when no cooldown time remains. *)
Theorem waterLevel_is_a_percentage (cooldownTotalMs cooldownRemainingMs : option number) :
  (exists k : Z,
     waterLevel cooldownTotalMs cooldownRemainingMs = inject_Z k /\ (0 <= k <= 100)%Z) /\
  (over cooldownRemainingMs 0 <= 0 ->
     waterLevel cooldownTotalMs cooldownRemainingMs == 0 /\
     waterSecs cooldownRemainingMs == 0).
Proof.
  unfold waterLevel, waterSecs, waterRemaining.
  set (total := if eqb (over cooldownTotalMs 15000) 0 then 1
                else over cooldownTotalMs 15000).
  set (rem := Math_max 0 (over cooldownRemainingMs 0)).
  split.
  - set (x := Math_round (rem / total * 100)).
    assert (X : exists z, x = inject_Z z) by (eexists; reflexivity).
    destruct X as (z & Ez). rewrite Ez.
    destruct (Math_min_cases 100 (inject_Z z)) as [[H1 ->]|[H1 ->]].
    + exists 100%Z. split; [reflexivity | lia].
    + destruct (Math_max_cases 0 (inject_Z z)) as [[H2 ->]|[H2 ->]].
      * exists z. split; [reflexivity|].
        assert (A : (0 <= z)%Z).
        { assert (L : inject_Z (0 - 1) < inject_Z z).
          { eapply Qlt_le_trans; [|exact H2]. reflexivity. }
          apply inject_Z_lt_inv in L. lia. }
        assert (B : (z < 100)%Z) by (apply inject_Z_lt_inv; exact H1).
        lia.
      * exists 0%Z. split; [reflexivity | lia].
  - intro H.
    assert (R : rem == 0).
    { unfold rem. destruct (Math_max_cases 0 (over cooldownRemainingMs 0))
        as [[H1 ->]|[H1 ->]]; lra. }
    assert (E : rem / total * 100 + (1 # 2) == 1 # 2).
    { rewrite R. unfold Qdiv. rewrite !Qmult_0_l. reflexivity. }
    assert (C1 : Qfloor (rem / total * 100 + (1 # 2)) = 0%Z)
      by (rewrite E; reflexivity).
    assert (C2 : Qceiling (rem / 1000) = 0%Z) by (rewrite R; reflexivity).
    unfold Math_round, Math_ceil. rewrite C1, C2. split; reflexivity.
Qed.

Lemma waterLevel_is_a_percentage_witness :
  over (Some (-250)) 0 <= 0 /\
  waterLevel (Some 0) (Some (-250)) == 0 /\
  exists k : Z, waterLevel (Some 15000) (Some 90000) = inject_Z k /\ (0 <= k <= 100)%Z.
Proof.
  assert (H : over (Some (-250)) 0 <= 0) by discriminate.
  exact (conj H
           (conj (proj1 (proj2 (waterLevel_is_a_percentage (Some 0) (Some (-250))) H))
                 (proj1 (waterLevel_is_a_percentage (Some 15000) (Some 90000))))).
Defined.
